(** * Mixed-precision policy of the Whisper export helper

    A shallow embedding of [WhisperHelper.auto_mixed_precision]
    (onnxruntime/transformers/models/whisper/whisper_helper.py) together with
    the pieces of the ONNX graph interface it calls, and the properties of the
    precision policy it derives. *)

From Stdlib Require Import ZArith QArith Qround Qabs Qpower Qreduction Lqa Lia Ascii.
From stdpp Require Import base option list strings gmap.

Local Open Scope string_scope.

(** ** Tensor values *)

(** Modelled from the spec: the "numeric values" of a constant tensor.  The
    finite values of a float tensor are held exactly, as rationals; the two
    infinities and not-a-number are the remaining IEEE values.  The sign of
    zero is not tracked. *)
Inductive fval : Type :=
  | Fin (q : Q)
  | Inf (neg : bool)
  | NaN.

Module Float.

Local Open Scope Q_scope.

(** The arithmetic below is that of the numeric library behind
    [float_to_float16_max_diff]; neither is part of the sources. *)

Definition pow2 (k : Z) : Q := 2 ^ k.

(** The [k] with [2^k <= q < 2^(k+1)], for a positive [q]. *)
Definition Qfloor_log2 (q : Q) : Z :=
  let k := (Z.log2 (Qnum q) - Z.log2 (Zpos (Qden q)))%Z in
  if Qle_bool (pow2 k) q then k else (k - 1)%Z.

(** Rounding to the nearest integer, ties to the even one. *)
Definition round_half_even (x : Q) : Z :=
  let f := Qfloor x in
  match Qcompare (x - inject_Z f) (1 # 2) with
  | Lt => f
  | Gt => (f + 1)%Z
  | Eq => if Z.even f then f else (f + 1)%Z
  end.

(** The largest finite 16-bit value, [(2 - 2^-10) * 2^15]. *)
Definition fp16_max : Q := 65504.

(** The exponent of the unit in the last place of the 16-bit format at
    [q]: eleven significant bits, and [2^-24] as the smallest step. *)
Definition fp16_exponent (q : Q) : Z :=
  Z.max (Qfloor_log2 (Qabs q) - 10) (-24).

(** Modelled from the spec: the rounding of a value "to 16-bit precision
    and back to 32-bit" (done by the numeric library behind
    [float_to_float16_max_diff], which is not part of the sources).  It is
    IEEE binary16 rounding to nearest, ties to even, overflowing to an
    infinity; every binary16 value is also a binary32 value, so the way
    back changes nothing. *)
Definition round_fp16 (v : fval) : fval :=
  match v with
  | Fin q =>
      if Qeq_bool q 0 then Fin 0
      else
        let e := fp16_exponent q in
        let r := Qred (inject_Z (round_half_even (q / pow2 e)) * pow2 e) in
        if Qle_bool (Qabs r) fp16_max then Fin r
        else Inf (negb (Qle_bool 0 q))
  | Inf s => Inf s
  | NaN => NaN
  end.

(** Modelled from the spec: the "difference" of two values, with the IEEE
    rules for the infinities. *)
Definition fsub (a b : fval) : fval :=
  match a, b with
  | NaN, _ | _, NaN => NaN
  | Fin x, Fin y => Fin (x - y)
  | Fin _, Inf s => Inf (negb s)
  | Inf s, Fin _ => Inf s
  | Inf s, Inf s' => if Bool.eqb s s' then NaN else Inf s
  end.

(** Modelled from the spec: the "absolute" value. *)
Definition fabs (a : fval) : fval :=
  match a with
  | Fin x => Fin (Qabs x)
  | Inf _ => Inf false
  | NaN => NaN
  end.

(** The comparison [a < b] of line 254; a comparison with not-a-number is
    false. *)
Definition flt (a b : fval) : bool :=
  match a, b with
  | NaN, _ | _, NaN => false
  | Fin x, Fin y => negb (Qle_bool y x)
  | Fin _, Inf s => negb s
  | Inf s, Fin _ => s
  | Inf s, Inf s' => s && negb s'
  end.

(** Modelled from the spec: the "maximum" of two values; not-a-number wins,
    as in an array maximum. *)
Definition fmax (a b : fval) : fval :=
  match a, b with
  | NaN, _ | _, NaN => NaN
  | _, _ => if flt a b then b else a
  end.

(** Modelled from the spec: the "absolute difference between each weight
    value and the value obtained by rounding that value to 16-bit precision
    and back". *)
Definition round_trip_error (v : fval) : fval :=
  fabs (fsub v (round_fp16 v)).

(** The threshold of the detection heuristic, the [1e-6] of line 254, taken
    exactly: no 32-bit float lies between it and the double nearest to it. *)
Definition threshold : fval := Fin (1 # 1000000).

End Float.

(** ** The ONNX graph *)

(** Modelled from the spec: the "Computational Graph" of the data model, "an
    ordered collection of Operation Nodes, each with a type tag (operator
    kind), a name, input/output identifiers", with its "Initializer"s
    ("a constant tensor of numeric values"), its declared inputs and outputs,
    and the "tensor type annotations" that the conversion mutates.  The
    classes themselves belong to the ONNX library and are not part of the
    sources; the fields carry the names the source uses. *)
Inductive DataType : Type := FLOAT | FLOAT16 | DOUBLE | NONFLOAT.

Record NodeProto : Type := {
  op_type : string;
  node_name : string;
  node_input : list string;
  node_output : list string
}.

(** [float_data] stands for the values a tensor holds, whichever field of
    the message carries them. *)
Record TensorProto : Type := {
  tensor_name : string;
  data_type : DataType;
  float_data : list fval
}.

Record ValueInfoProto : Type := {
  value_name : string;
  elem_type : DataType
}.

Record GraphProto : Type := {
  node : list NodeProto;
  initializer : list TensorProto;
  input : list ValueInfoProto;
  output : list ValueInfoProto;
  value_info : list ValueInfoProto
}.

Record OnnxModel : Type := { graph : GraphProto }.

(** ** Results and exceptions *)

Inductive exception : Type :=
  | IndexError       (* [output[0]] of a graph without outputs *)
  | AssertionError   (* the [assert] on the output-name map *)
  | ValueError       (* raised inside [float_to_float16_max_diff] *)
  | RuntimeError.    (* raised inside [float_to_float16_max_diff] *)

Inductive result (A : Type) : Type :=
  | Ok (a : A)
  | Raise (e : exception).
Arguments Ok {A} a.
Arguments Raise {A} e.

Definition bind {A B : Type} (r : result A) (k : A → result B) : result B :=
  match r with
  | Ok a => k a
  | Raise e => Raise e
  end.

Notation "'let*' x ':=' r 'in' k" := (bind r (fun x => k))
  (at level 10, x pattern, r at level 100, k at level 200).

(** ** The interface of [OnnxModel] used by the helper *)

(** Modelled from the spec: [OnnxModel.nodes] ("enumerate all nodes"); the
    class [OnnxModel] is not part of the sources. *)
Definition nodes (onnx_model : OnnxModel) : list NodeProto :=
  node (graph onnx_model).

(** Modelled from the spec: [OnnxModel.output_name_to_node] ("look up a node
    producing a given output identifier"), the dictionary from every output
    name of every node to that node; a later node replaces an earlier one
    under the same name. *)
Definition output_name_to_node (onnx_model : OnnxModel) : gmap string NodeProto :=
  foldl (fun acc n => foldl (fun acc' o => <[o := n]> acc') acc (node_output n))
        ∅ (nodes onnx_model).

(** Modelled from the spec: [OnnxModel.get_initializer] ("look up an
    initializer by identifier"); [None] when there is none of that name. *)
Definition get_initializer (onnx_model : OnnxModel) (name : string) : option TensorProto :=
  List.find (fun t => String.eqb (tensor_name t) name)
            (initializer (graph onnx_model)).

(** Modelled from the spec: [float_to_float16_max_diff] of the module
    [float16], which is not part of the sources: "the maximum absolute
    difference between each weight value and the value obtained by rounding
    that value to 16-bit precision and back to 32-bit".  The differences are
    absolute values, so the maximum is taken from 0.  The function measures
    the values of a 32-bit float tensor: handed [None], or a tensor of another
    type, it raises a ValueError, and for a tensor that holds no value a
    RuntimeError. *)
Definition float_to_float16_max_diff (tensor : option TensorProto) : result fval :=
  match tensor with
  | None => Raise ValueError
  | Some t =>
      match data_type t with
      | FLOAT =>
          match float_data t with
          | [] => Raise RuntimeError
          | _ => Ok (foldr Float.fmax (Fin 0) (Float.round_trip_error <$> float_data t))
          end
      | _ => Raise ValueError
      end
  end.

(** ** [WhisperHelper.auto_mixed_precision] *)

(** The dictionary [parameters] of lines 265-270, which is also the keyword
    arguments of the conversion. *)
Record Parameters : Type := {
  keep_io_types : list string;
  op_block_list : list string;
  node_block_list : list string;
  force_fp16_initializers : bool
}.

Definition default_op_block_list : list string :=
  ["SimplifiedLayerNormalization"; "SkipSimplifiedLayerNormalization"; "Relu"; "Add"].

(** The loop over [node.input]: the initializer of the first input that has
    one, [None] when no input has. *)
Fixpoint find_initializer (onnx_model : OnnxModel) (inputs : list string) : option TensorProto :=
  match inputs with
  | [] => None
  | i :: rest =>
      match get_initializer onnx_model i with
      | Some t => Some t
      | None => find_initializer onnx_model rest
      end
  end.

(** [graph().output[0]]. *)
Definition first_output (onnx_model : OnnxModel) : result ValueInfoProto :=
  match output (graph onnx_model) with
  | [] => Raise IndexError
  | vi :: _ => Ok vi
  end.

Section AutoMixedPrecision.

(** [OnnxModel.convert_float_to_float16], called at line 273 with the
    parameters as keyword arguments.  The class is not part of the sources
    and the rewriting of the graph is not described beyond its arguments, so
    the method is a parameter: it is given the parameters and the model, and
    the model it leaves is its value. *)
Variable convert_float_to_float16 : Parameters → OnnxModel → OnnxModel.

(** The function of the source.  The calls to the logger, and the two sets of
    operator kinds that are built only to be logged, are left out.  The
    result is the dictionary of parameters returned, with the model as the
    conversion leaves it. *)
Definition auto_mixed_precision (onnx_model : OnnxModel) (op_block_list : list string)
    : result (Parameters * OnnxModel) :=
  (* logits is the first output *)
  let* logits_output := first_output onnx_model in
  let logits_output_name := value_name logits_output in
  match output_name_to_node onnx_model !! logits_output_name with
  | None => Raise AssertionError
  | Some node =>
      let* detected :=
        if String.eqb (op_type node) "MatMul" then
          let initializer := find_initializer onnx_model (node_input node) in
          let* max_diff := float_to_float16_max_diff initializer in
          Ok (Float.flt max_diff Float.threshold, Some node)
        else Ok (false, None)
      in
      let '(is_weight_fp16_precision, last_matmul_node) := detected in
      let '(keep_io_types, node_block_list) :=
        match negb is_weight_fp16_precision, last_matmul_node with
        | true, Some last => ([logits_output_name], [node_name last])
        | _, _ => ([], [])
        end in
      let parameters :=
        {| keep_io_types := keep_io_types;
           op_block_list := op_block_list;
           node_block_list := node_block_list;
           force_fp16_initializers := is_weight_fp16_precision |} in
      Ok (parameters, convert_float_to_float16 parameters onnx_model)
  end.

End AutoMixedPrecision.

(** ** Vocabulary of the properties *)

(** The first declared output of the graph is named [o], and [n] is the node
    the output-name map gives for it. *)
Definition produces_first_output (onnx_model : OnnxModel) (o : string) (n : NodeProto) : Prop :=
  value_name <$> head (output (graph onnx_model)) = Some o
  ∧ output_name_to_node onnx_model !! o = Some n.

(** [t] is the weight of the node [n]: an initializer of the graph that
    carries the name of an input of [n], where no input of [n] before that
    one names an initializer, and no initializer before [t] carries the same
    name.  For a node with one constant input in a graph whose initializers
    have distinct names this is that input. *)
Definition weight_initializer (onnx_model : OnnxModel) (n : NodeProto) (t : TensorProto) : Prop :=
  ∃ before after earlier later,
    node_input n = (before ++ tensor_name t :: after)%list
    ∧ initializer (graph onnx_model) = (earlier ++ t :: later)%list
    ∧ (∀ t', t' ∈ earlier → tensor_name t' ≠ tensor_name t)
    ∧ (∀ t', t' ∈ initializer (graph onnx_model) → tensor_name t' ∉ before).

(** A finite value of the 16-bit format: at most eleven significant bits,
    steps no finer than [2^-24], magnitude at most [2047 * 2^5 = 65504]. *)
Definition fp16_representable (v : fval) : Prop :=
  ∃ (q : Q) (m e : Z),
    v = Fin q ∧ (Z.abs m < 2 ^ 11)%Z ∧ (-24 ≤ e ≤ 5)%Z
    ∧ (q == inject_Z m * Float.pow2 e)%Q.

(** The value changes by more than the threshold when rounded to 16 bits and
    back. *)
Definition exceeds_tolerance (v : fval) : Prop :=
  Float.flt Float.threshold (Float.round_trip_error v) = true.

(** A tensor holds the decimal [d] as [v]: exactly, or rounded to a 32-bit
    float, which for [|d| < 1/2] is within [2^-26] of it. *)
Definition stored_as (v : fval) (d : Q) : Prop :=
  ∃ q : Q, v = Fin q ∧ (Qabs (q - d) <= 1 # 67108864)%Q.

(** ** Example graphs *)

Definition matmul_node : NodeProto :=
  {| op_type := "MatMul"; node_name := "/proj_out/MatMul";
     node_input := ["hidden_states"; "proj_out.weight"];
     node_output := ["logits"] |}.

Definition proj_out_weight (weights : list fval) : TensorProto :=
  {| tensor_name := "proj_out.weight"; data_type := FLOAT; float_data := weights |}.

(** A single MatMul node that produces "logits" from a constant weight. *)
Definition logits_model (weights : list fval) : OnnxModel :=
  {| graph :=
       {| node := [matmul_node];
          initializer := [proj_out_weight weights];
          input := [{| value_name := "hidden_states"; elem_type := FLOAT |}];
          output := [{| value_name := "logits"; elem_type := FLOAT |}];
          value_info := [] |} |}.

(** The same graph in 64-bit floats, with a weight that holds 0.1. *)
Definition double_weight : TensorProto :=
  {| tensor_name := "proj_out.weight"; data_type := DOUBLE;
     float_data := [Fin (1 # 10)] |}.

Definition double_weight_model : OnnxModel :=
  {| graph :=
       {| node := [matmul_node];
          initializer := [double_weight];
          input := [{| value_name := "hidden_states"; elem_type := DOUBLE |}];
          output := [{| value_name := "logits"; elem_type := DOUBLE |}];
          value_info := [] |} |}.

(** The same graph with a weight already stored as 16-bit floats, 0.5 and
    -0.75. *)
Definition half_weight : TensorProto :=
  {| tensor_name := "proj_out.weight"; data_type := FLOAT16;
     float_data := [Fin (1 # 2); Fin (-3 # 4)] |}.

Definition half_weight_model : OnnxModel :=
  {| graph :=
       {| node := [matmul_node];
          initializer := [half_weight];
          input := [{| value_name := "hidden_states"; elem_type := FLOAT |}];
          output := [{| value_name := "logits"; elem_type := FLOAT |}];
          value_info := [] |} |}.

(** The same node, with its weight fed as a second graph input. *)
Definition dynamic_weight_model : OnnxModel :=
  {| graph :=
       {| node := [matmul_node];
          initializer := [];
          input := [{| value_name := "hidden_states"; elem_type := FLOAT |};
                    {| value_name := "proj_out.weight"; elem_type := FLOAT |}];
          output := [{| value_name := "logits"; elem_type := FLOAT |}];
          value_info := [] |} |}.

Definition add_node : NodeProto :=
  {| op_type := "Add"; node_name := "/proj_out/Add";
     node_input := ["projected"; "proj_out.bias"];
     node_output := ["logits"] |}.

(** "logits" produced by an Add node. *)
Definition biased_logits_model : OnnxModel :=
  {| graph :=
       {| node :=
            [{| op_type := "MatMul"; node_name := "/proj_out/MatMul";
                node_input := ["hidden_states"; "proj_out.weight"];
                node_output := ["projected"] |};
             add_node];
          initializer :=
            [proj_out_weight [Fin (1 # 2)];
             {| tensor_name := "proj_out.bias"; data_type := FLOAT;
                float_data := [Fin (1 # 4)] |}];
          input := [{| value_name := "hidden_states"; elem_type := FLOAT |}];
          output := [{| value_name := "logits"; elem_type := FLOAT |}];
          value_info := [{| value_name := "projected"; elem_type := FLOAT |}] |} |}.

(** A graph that declares no output. *)
Definition no_output_model : OnnxModel :=
  {| graph :=
       {| node := [matmul_node];
          initializer := [proj_out_weight [Fin (1 # 2)]];
          input := [{| value_name := "hidden_states"; elem_type := FLOAT |}];
          output := [];
          value_info := [] |} |}.

(** A graph whose output is one of its inputs. *)
Definition passthrough_model : OnnxModel :=
  {| graph :=
       {| node := [matmul_node];
          initializer := [proj_out_weight [Fin (1 # 2)]];
          input := [{| value_name := "hidden_states"; elem_type := FLOAT |}];
          output := [{| value_name := "hidden_states"; elem_type := FLOAT |}];
          value_info := [] |} |}.

(** The parameters of the two outcomes of the detection. *)
Definition fp32_parameters (op_block_list : list string) (o : string) (n : NodeProto) : Parameters :=
  {| keep_io_types := [o];
     op_block_list := op_block_list;
     node_block_list := [node_name n];
     force_fp16_initializers := false |}.

Definition unpinned_parameters (op_block_list : list string) (fp16 : bool) : Parameters :=
  {| keep_io_types := [];
     op_block_list := op_block_list;
     node_block_list := [];
     force_fp16_initializers := fp16 |}.

(** A conversion to run the examples with, which leaves the model as it
    finds it; the properties hold for every conversion. *)
Definition unconverted (parameters : Parameters) (onnx_model : OnnxModel) : OnnxModel :=
  onnx_model.

(** * The rest of the helper and its neighbours *)

(** ** Python values and exceptions *)

(** The exceptions of the built-in operations used below; [PyError] stands
    for whatever else an external call raises. *)
Inductive error : Type :=
  | PyIndexError
  | PyKeyError (key : string)
  | PyTypeError
  | PyValueError
  | PyError (kind : string).

Inductive outcome (A : Type) : Type :=
  | Return (a : A)
  | Throw (e : error).
Arguments Return {A} a.
Arguments Throw {A} e.

Definition and_then {A B : Type} (r : outcome A) (k : A → outcome B) : outcome B :=
  match r with
  | Return a => k a
  | Throw e => Throw e
  end.

Notation "'try*' x ':=' r 'in' k" := (and_then r (fun x => k))
  (at level 10, x pattern, r at level 100, k at level 200).

(** Strings are sequences of one-byte characters, which covers the ASCII
    names and paths the helper is used with. *)

(** [s.split(sep)] for a separator of one character. *)
Fixpoint split (sep : Ascii.ascii) (s : string) : list string :=
  match s with
  | EmptyString => [EmptyString]
  | String c s' =>
      if Ascii.eqb c sep then EmptyString :: split sep s'
      else
        match split sep s' with
        | [] => [String c EmptyString]
        | w :: ws => String c w :: ws
        end
  end.

(** [sep.join(l)]. *)
Fixpoint join (sep : string) (l : list string) : string :=
  match l with
  | [] => ""
  | [x] => x
  | x :: rest => x +:+ sep +:+ join sep rest
  end.

(** [l[-1]]. *)
Definition getitem_last {A : Type} (l : list A) : outcome A :=
  match last l with
  | Some x => Return x
  | None => Throw PyIndexError
  end.

(** [s[n:]]. *)
Fixpoint slice_from (n : nat) (s : string) : string :=
  match n, s with
  | O, _ => s
  | S n', String _ s' => slice_from n' s'
  | S _, EmptyString => EmptyString
  end.

(** [c in s]. *)
Fixpoint contains (c : Ascii.ascii) (s : string) : bool :=
  match s with
  | EmptyString => false
  | String a s' => Ascii.eqb a c || contains c s'
  end.

(** ** Paths, as [posixpath] and [pathlib] have them on a POSIX system *)

(** [os.sep]. *)
Definition sep : Ascii.ascii := "/"%char.

(** [s.startswith("/")] and [s.endswith("/")]. *)
Definition startswith_sep (s : string) : bool :=
  match s with
  | String c _ => Ascii.eqb c sep
  | EmptyString => false
  end.

Fixpoint endswith_sep (s : string) : bool :=
  match s with
  | EmptyString => false
  | String c EmptyString => Ascii.eqb c sep
  | String _ s' => endswith_sep s'
  end.

(** [os.path.join(path, b)]: an absolute [b] replaces [path]; otherwise [b]
    is appended, after a slash unless [path] is empty or ends in one. *)
Definition os_path_join (path b : string) : string :=
  if startswith_sep b then b
  else if String.eqb path "" || endswith_sep path then path +:+ b
  else path +:+ "/" +:+ b.

(** [s.lstrip("/")]. *)
Fixpoint lstrip_sep (s : string) : string :=
  match s with
  | String c s' => if Ascii.eqb c sep then lstrip_sep s' else s
  | EmptyString => EmptyString
  end.

(** [splitroot] of [pathlib]: the root ("//" for exactly two leading slashes,
    "/" for any other number of them) and the rest. *)
Definition splitroot (part : string) : string * string :=
  if startswith_sep part then
    let stripped := lstrip_sep part in
    if Nat.eqb (String.length part - String.length stripped) 2
    then ("//", stripped) else ("/", stripped)
  else ("", part).

(** [Path(s).parts]: the root, if any, and the segments that are neither
    empty nor ".". *)
Definition parts (s : string) : list string :=
  let '(root, rel) := splitroot s in
  let names :=
    List.filter (fun x => negb (String.eqb x "") && negb (String.eqb x "."))
                (split sep rel) in
  if String.eqb root "" then names else root :: names.

(** ** [WhisperHelper.get_onnx_path] *)

(** Lines 45-71.  [isdir] is [os.path.isdir], the state of the file system at
    the call. *)
Definition get_onnx_path (isdir : string → bool)
    (output_dir model_name_or_path suffix : string) (new_folder : bool)
    : outcome string :=
  try* model_name :=
    if isdir model_name_or_path
    then getitem_last (parts model_name_or_path)
    else getitem_last (split sep model_name_or_path) in
  let model_name := model_name +:+ suffix in
  let directory :=
    if new_folder then os_path_join output_dir model_name else output_dir in
  Return (os_path_join directory (model_name +:+ ".onnx")).

(** ** [WhisperHelper.load_model_openai] *)

Definition PRETRAINED_WHISPER_MODELS : list string :=
  [ "whisper-tiny"; "whisper-tiny.en"; "whisper-base"; "whisper-base.en";
    "whisper-small"; "whisper-small.en"; "whisper-medium"; "whisper-medium.en";
    "whisper-large"; "whisper-large-v2"; "whisper-large-v3" ].

(** Line 94: [model_name_or_path.split("/")[-1][8:]]. *)
Definition openai_model_name (model_name_or_path : string) : outcome string :=
  try* last_part := getitem_last (split sep model_name_or_path) in
  Return (slice_from 8 last_part).

Section LoadModelOpenai.

(** What the function imports from the [whisper] package and from [torch]:
    the two tables, the download, the reading of the checkpoint file
    ([open] and [torch.load]), the construction of the model from the
    checkpoint (lines 104-106), [set_alignment_heads] and [to]. *)
Context {Device Checkpoint Whisper : Type}.
Variable _MODELS : gmap string string.
Variable _ALIGNMENT_HEADS : gmap string string.
Variable _download : string → string → bool → outcome string.
Variable torch_load : string → Device → outcome Checkpoint.
Variable build_model : Checkpoint → outcome Whisper.
Variable set_alignment_heads : string → Whisper → outcome Whisper.
Variable to : Device → Whisper → outcome Whisper.

(** Lines 74-110.  When the name is not in [_MODELS], [checkpoint_file] is
    still [None] at [open], which raises a TypeError. *)
Definition load_model_openai (model_name_or_path cache_dir : string) (device : Device)
    : outcome Whisper :=
  let in_memory := false in
  try* model_name := openai_model_name model_name_or_path in
  try* located :=
    match _MODELS !! model_name with
    | Some url =>
        try* checkpoint_file := _download url cache_dir in_memory in
        match _ALIGNMENT_HEADS !! model_name with
        | Some alignment_heads => Return (Some checkpoint_file, Some alignment_heads)
        | None => Throw (PyKeyError model_name)
        end
    | None => Return (None, None)
    end in
  let '(checkpoint_file, alignment_heads) := located in
  match checkpoint_file with
  | None => Throw PyTypeError
  | Some file =>
      try* checkpoint := torch_load file device in
      try* model := build_model checkpoint in
      try* model :=
        match alignment_heads with
        | Some heads => set_alignment_heads heads model
        | None => Return model
        end in
      to device model
  end.

End LoadModelOpenai.

(** ** [WhisperHelper.optimize_onnx] *)

(** The fields of [FusionOptions] that the function sets. *)
Record FusionOptions : Type := {
  fusion_model_type : string;
  use_multi_head_attention : bool;
  disable_multi_head_attention_bias : bool
}.

(** An exception of [auto_mixed_precision], as it reaches the caller. *)
Definition raised (e : exception) : error :=
  match e with
  | IndexError => PyIndexError
  | AssertionError => PyError "AssertionError"
  | ValueError => PyValueError
  | RuntimeError => PyError "RuntimeError"
  end.

Section OptimizeOnnx.

(** What the function calls outside the sources: [optimize_model] of the
    module [optimizer], with the arguments in the order of the call (path,
    model type, heads, hidden size, level, options, use_gpu,
    only_onnxruntime), the deprecated
    [OnnxModel.convert_model_float32_to_float16], [OnnxModel.save_model_to_file]
    and the conversion that [auto_mixed_precision] ends with.  The optimizer
    and the writer work on the world outside the program (the files, the
    session) and each of the first three can fail. *)
Context {World : Type}.
Variable convert_float_to_float16 : Parameters → OnnxModel → OnnxModel.
Variable optimize_model :
  string → string → nat → nat → option nat → FusionOptions → bool → bool →
  World → outcome OnnxModel * World.
Variable convert_model_float32_to_float16 : bool → OnnxModel → outcome OnnxModel.
Variable save_model_to_file :
  OnnxModel → string → bool → bool → World → outcome unit * World.

(** Lines 278-314.  The flag [auto_mixed_precision] of the source is
    [use_auto_mixed_precision] here. *)
Definition optimize_onnx (onnx_model_path optimized_model_path : string)
    (is_float16 : bool) (num_attention_heads hidden_size : nat)
    (use_external_data_format use_auto_mixed_precision use_gpu : bool)
    (provider : string) (world : World) : outcome unit * World :=
  let optimization_options :=
    {| fusion_model_type := "bart";
       use_multi_head_attention := true;
       disable_multi_head_attention_bias := String.eqb provider "rocm" |} in
  match
    optimize_model onnx_model_path "bart" num_attention_heads hidden_size
      (if negb use_external_data_format then Some 2 else None)
      optimization_options use_gpu false world
  with
  | (Throw e, world) => (Throw e, world)
  | (Return m, world) =>
      let converted :=
        if is_float16 then
          if use_auto_mixed_precision then
            match auto_mixed_precision convert_float_to_float16 m default_op_block_list with
            | Ok (_, m) => Return m
            | Raise e => Throw (raised e)
            end
          else convert_model_float32_to_float16 false m
        else Return m in
      match converted with
      | Return m =>
          save_model_to_file m optimized_model_path use_external_data_format true world
      | Throw e => (Throw e, world)
      end
  end.

End OptimizeOnnx.

(** ** The comparison that ends [WhisperHelper.verify_onnx] *)

Definition expected_transcription_options : list string :=
  [" Mr. Quilter is the apostle of the middle classes and we are glad to welcome his gospel.";
   " Mr. Quilter is the apostle of the middle classes, and we are glad to welcome his gospel.";
   String " "%char (String (Ascii.ascii_of_nat 34)
     "Mr. Quilter is the apostle of the middle classes, and we are glad to welcome his gospel.")].

(** The token ids are 64-bit integers of numpy (those of the ONNX run are
    widened to them in the subtraction), whose arithmetic wraps around. *)
Definition wrap_int64 (z : Z) : Z := ((z + 2 ^ 63) mod 2 ^ 64 - 2 ^ 63)%Z.

Definition sub_int64 (x y : Z) : Z := wrap_int64 (x - y).

Definition abs_int64 (x : Z) : Z := wrap_int64 (Z.abs x).

(** [a - b] on integer arrays of one row, with the broadcasting of numpy: a
    row of one element stretches to the length of the other. *)
Definition row_sub (a b : list Z) : outcome (list Z) :=
  if Nat.eqb (length a) (length b) then Return (zip_with sub_int64 a b)
  else
    match b, a with
    | [y], _ => Return ((fun x => sub_int64 x y) <$> a)
    | _, [x] => Return ((fun y => sub_int64 x y) <$> b)
    | _, _ => Throw PyValueError
    end.

(** [d.min()] and [d.max()], which fail on an empty array. *)
Definition amin (d : list Z) : outcome Z :=
  match d with
  | [] => Throw PyValueError
  | x :: rest => Return (foldl Z.min x rest)
  end.

Definition amax (d : list Z) : outcome Z :=
  match d with
  | [] => Throw PyValueError
  | x :: rest => Return (foldl Z.max x rest)
  end.

(** [max(a, b, key=abs)]: the first of the two, unless the key of the second
    is larger; the key is the [abs] of 64-bit integers, which leaves the
    smallest of them negative. *)
Definition max_key_abs (a b : Z) : Z :=
  if (abs_int64 a <? abs_int64 b)%Z then b else a.

(** Lines 420-422. *)
Definition parity (pt_transcription ort_transcription : string) : bool :=
  bool_decide (pt_transcription ∈ expected_transcription_options)
  && bool_decide (ort_transcription ∈ expected_transcription_options).

(** Lines 403-436, from the two transcriptions and the two arrays of token
    ids that the runs produced.  Both arrays have one row (one audio, one
    returned sequence, lines 352 and 401), held here as a list of integers
    in the 64-bit range; the warnings logged are left out. *)
Definition verify_onnx (pt_transcription ort_transcription : string)
    (pt_outputs ort_outputs : list Z) : outcome Z :=
  if parity pt_transcription ort_transcription then Return 0%Z
  else
    try* diff :=
      if negb (Nat.eqb (length pt_outputs) (length ort_outputs))
      then row_sub pt_outputs (take (length pt_outputs) ort_outputs)
      else row_sub pt_outputs ort_outputs in
    try* lo := amin diff in
    try* hi := amax diff in
    Return (max_key_abs lo hi).

(** ** [SDKConfiguration.get_server_details] *)

Definition SERVER_PROD : string := "prod".
Definition SERVER_LOCAL : string := "local".
Definition SERVERS : gmap string string :=
  <[SERVER_PROD := "https://api.unstructured.io"]>
    (<[SERVER_LOCAL := "http://localhost:8000"]> ∅).

(** The string fields of the dataclass; [client], [security] and
    [retry_config] play no part in the method. *)
Record SDKConfiguration : Type := {
  server_url : string;
  server : string;
  language : string;
  openapi_doc_version : string;
  sdk_version : string;
  gen_version : string;
  user_agent : string
}.

(** [self.server = s]. *)
Definition set_server (s : string) (self : SDKConfiguration) : SDKConfiguration :=
  {| server_url := server_url self; server := s; language := language self;
     openapi_doc_version := openapi_doc_version self;
     sdk_version := sdk_version self; gen_version := gen_version self;
     user_agent := user_agent self |}.

(** Lines 35-41.  The method mutates [self]; the object it leaves is the
    second component.  [remove_suffix] is [utils.remove_suffix]. *)
Definition get_server_details (remove_suffix : string → string → string)
    (self : SDKConfiguration)
    : outcome (string * gmap string string) * SDKConfiguration :=
  if negb (String.eqb (server_url self) "") then
    (Return (remove_suffix (server_url self) "/", ∅), self)
  else
    let self :=
      if String.eqb (server self) "" then set_server SERVER_PROD self else self in
    match SERVERS !! server self with
    | Some url => (Return (url, ∅), self)
    | None => (Throw (PyKeyError (server self)), self)
    end.

(** ** [DiscordRunner.update_read_config] *)

Definition comma : Ascii.ascii := ","%char.

Record SimpleDiscordConfig : Type := { channels : list string }.

Section DiscordRunner.

(** [hashlib.sha256] of the UTF-8 bytes of a text, the function
    [update_download_dir_hash] of [unstructured.ingest.runner.utils], and the
    assignment to [download_dir] of a read configuration. *)
Context {Hash ReadConfig : Type}.
Variable sha256 : string → Hash.
Variable update_download_dir_hash : string → ReadConfig → Hash → string.
Variable set_download_dir : string → ReadConfig → ReadConfig.

Record DiscordRunner : Type := {
  connector_config : SimpleDiscordConfig;
  read_config : ReadConfig
}.

(** Lines 19-21. *)
Definition hashed_dir_name (self : DiscordRunner) : Hash :=
  sha256 (join "," (channels (connector_config self))).

(** Lines 18-28. *)
Definition update_read_config (self : DiscordRunner) : DiscordRunner :=
  {| connector_config := connector_config self;
     read_config :=
       set_download_dir
         (update_download_dir_hash "discord" (read_config self) (hashed_dir_name self))
         (read_config self) |}.

End DiscordRunner.

(** * Properties *)

(** ** Arithmetic of the 16-bit rounding *)

Section FloatFacts.
Import Float.
Local Open Scope Q_scope.

Lemma pow2_pos k : 0 < pow2 k.
Proof. apply Qpower_0_lt. reflexivity. Qed.

Lemma pow2_plus a b : pow2 (a + b) == pow2 a * pow2 b.
Proof. apply Qpower_plus. discriminate. Qed.

Lemma pow2_minus a b : pow2 (a - b) == pow2 a / pow2 b.
Proof. apply Qpower_minus. discriminate. Qed.

Lemma pow2_le a b : (a <= b)%Z → pow2 a <= pow2 b.
Proof. intros. apply Qpower_le_compat_l; [done | discriminate]. Qed.

Lemma pow2_lt_inv a b : pow2 a < pow2 b → (a < b)%Z.
Proof. intros. eapply Qpower_lt_compat_l_inv; [done | reflexivity]. Qed.

Lemma pow2_Z n : (0 <= n)%Z → pow2 n == inject_Z (2 ^ n).
Proof. intros. unfold pow2. by rewrite Zpower_Qpower. Qed.

Lemma Qfloor_log2_spec q :
  0 < q → pow2 (Qfloor_log2 q) <= q ∧ q < pow2 (Qfloor_log2 q + 1).
Proof.
  intros Hq. destruct q as [n d]. unfold Qfloor_log2. cbn [Qnum Qden].
  assert (Hn : (0 < n)%Z) by (unfold Qlt in Hq; cbn in Hq; lia).
  pose proof (Z.log2_spec n Hn) as [Hn1 Hn2].
  pose proof (Z.log2_spec (Zpos d) (Pos2Z.is_pos d)) as [Hd1 Hd2].
  pose proof (Z.log2_nonneg n) as Ha.
  pose proof (Z.log2_nonneg (Zpos d)) as Hb.
  generalize dependent (Z.log2 n). intros a ? ? ?.
  generalize dependent (Z.log2 (Zpos d)). intros b ? ? ?.
  assert (HA : (0 < 2 ^ a)%Z) by (apply Z.pow_pos_nonneg; lia).
  assert (HB : (0 < 2 ^ b)%Z) by (apply Z.pow_pos_nonneg; lia).
  rewrite !Z.pow_succ_r in * by lia.
  assert (Hup : n # d < pow2 (a - b + 1)).
  { replace (a - b + 1)%Z with ((a + 1) - b)%Z by lia.
    rewrite pow2_minus, !pow2_Z by lia.
    apply Qlt_shift_div_l; [unfold Qlt; cbn; lia|].
    rewrite Z.add_1_r, Z.pow_succ_r by lia.
    unfold Qlt; cbn. nia. }
  assert (Hlo : pow2 (a - b - 1) <= n # d).
  { replace (a - b - 1)%Z with (a - (b + 1))%Z by lia.
    rewrite pow2_minus, !pow2_Z by lia.
    apply Qle_shift_div_r; [unfold Qlt; cbn; lia|].
    rewrite Z.add_1_r, Z.pow_succ_r by lia.
    unfold Qle; cbn. nia. }
  destruct (Qle_bool (pow2 (a - b)) (n # d)) eqn:E.
  - apply Qle_bool_iff in E. split; done.
  - split; [done|]. replace (a - b - 1 + 1)%Z with (a - b)%Z by lia.
    apply Qnot_le_lt. intros H. apply Qle_bool_iff in H. congruence.
Qed.

Lemma Qfloor_log2_unique q k :
  pow2 k <= q → q < pow2 (k + 1) → Qfloor_log2 q = k.
Proof.
  intros Hlo Hhi.
  assert (0 < q) as Hq by (pose proof (pow2_pos k); lra).
  destruct (Qfloor_log2_spec q Hq) as [H1 H2].
  assert (pow2 (Qfloor_log2 q) < pow2 (k + 1)) as H3 by lra.
  assert (pow2 k < pow2 (Qfloor_log2 q + 1)) as H4 by lra.
  apply pow2_lt_inv in H3, H4. lia.
Qed.

Lemma inject_Z_succ n : inject_Z (n + 1) == inject_Z n + 1.
Proof. by rewrite inject_Z_plus. Qed.

Lemma inject_Z_pred n : inject_Z (n - 1) == inject_Z n - 1.
Proof. unfold Z.sub. by rewrite inject_Z_plus. Qed.

Lemma Qfloor_unique x n :
  inject_Z n <= x → x < inject_Z (n + 1) → Qfloor x = n.
Proof.
  intros Hlo Hhi.
  pose proof (Qfloor_le x) as H1. pose proof (Qlt_floor x) as H2.
  assert (inject_Z (Qfloor x) < inject_Z (n + 1)) as H3 by lra.
  assert (inject_Z n < inject_Z (Qfloor x + 1)) as H4 by lra.
  rewrite <- Zlt_Qlt in H3, H4. lia.
Qed.

(** An integer is its own rounding. *)
Lemma round_half_even_Z x n : x == inject_Z n → round_half_even x = n.
Proof.
  intros Hx. unfold round_half_even.
  rewrite (Qfloor_comp x (inject_Z n) Hx), Qfloor_Z. cbv zeta.
  assert (H : Qcompare (x - inject_Z n) (1 # 2) = Lt)
    by (apply (proj1 (Qlt_alt _ _)); rewrite Hx; lra).
  by rewrite H.
Qed.

(** Less than a half away from an integer, the rounding is that integer. *)
Lemma round_half_even_near x n :
  inject_Z n - (1 # 2) < x → x < inject_Z n + (1 # 2) → round_half_even x = n.
Proof.
  intros Hlo Hhi. unfold round_half_even.
  destruct (Qlt_le_dec x (inject_Z n)) as [Hlt|Hge].
  - assert (Qfloor x = (n - 1)%Z) as ->.
    { apply Qfloor_unique; [|by replace (n - 1 + 1)%Z with n by lia].
      rewrite inject_Z_pred. lra. }
    cbv zeta.
    assert (Qcompare (x - inject_Z (n - 1)) (1 # 2) = Gt) as ->.
    { apply (proj1 (Qgt_alt _ _)). rewrite inject_Z_pred. lra. }
    lia.
  - assert (Qfloor x = n) as ->.
    { apply Qfloor_unique; [done|]. rewrite inject_Z_succ. lra. }
    cbv zeta.
    assert (Qcompare (x - inject_Z n) (1 # 2) = Lt) as ->; [|done].
    apply (proj1 (Qlt_alt _ _)). lra.
Qed.

Lemma fp16_exponent_le q m e :
  ¬ q == 0 → (Z.abs m < 2 ^ 11)%Z → q == inject_Z m * pow2 e → (-24 <= e)%Z →
  (fp16_exponent q <= e)%Z.
Proof.
  intros Hq Hm Heq He. unfold fp16_exponent.
  assert (Ha : 0 < Qabs q).
  { destruct (Qlt_le_dec 0 (Qabs q)) as [|H]; [done|].
    exfalso. apply Hq. pose proof (Qabs_nonneg q) as Hnn.
    assert (Qabs q == 0) as Hz by lra.
    revert Hz. apply Qabs_case; intros; lra. }
  destruct (Qfloor_log2_spec _ Ha) as [Hlo _].
  assert (Hup : Qabs q < pow2 (e + 11)).
  { rewrite Heq, Qabs_Qmult, (Qabs_pos (pow2 e)) by (apply Qlt_le_weak, pow2_pos).
    rewrite pow2_plus. rewrite (Qmult_comm (pow2 e)).
    apply Qmult_lt_compat_r; [apply pow2_pos|].
    rewrite pow2_Z by lia. rewrite <- (Zabs_Qabs m 1).
    unfold Qlt; cbn. lia. }
  assert (pow2 (Qfloor_log2 (Qabs q)) < pow2 (e + 11)) as Hk by lra.
  apply pow2_lt_inv in Hk. lia.
Qed.

(** A value of the 16-bit format is its own rounding. *)
Lemma round_fp16_representable q m e :
  (Z.abs m < 2 ^ 11)%Z → (-24 <= e <= 5)%Z → q == inject_Z m * pow2 e →
  ∃ r, round_fp16 (Fin q) = Fin r ∧ r == q.
Proof.
  intros Hm He Heq. unfold round_fp16.
  destruct (Qeq_bool q 0) eqn:E0.
  { apply Qeq_bool_iff in E0. exists 0. split; [done|]. by rewrite E0. }
  apply Qeq_bool_neq in E0.
  pose proof (fp16_exponent_le q m e E0 Hm Heq ltac:(lia)) as HE.
  set (E := fp16_exponent q) in *.
  assert (Hint : q / pow2 E == inject_Z (m * 2 ^ (e - E))).
  { rewrite inject_Z_mult, <- pow2_Z by lia.
    rewrite pow2_minus, Heq. field.
    pose proof (pow2_pos E). lra. }
  rewrite (round_half_even_Z _ _ Hint).
  assert (Hr : Qred (inject_Z (m * 2 ^ (e - E)) * pow2 E) == q).
  { rewrite Qred_correct, <- Hint. field. pose proof (pow2_pos E). lra. }
  cbv zeta.
  assert (Hb : Qle_bool (Qabs (Qred (inject_Z (m * 2 ^ (e - E)) * pow2 E)))
                        fp16_max = true).
  { apply Qle_bool_iff. rewrite Hr, Heq, Qabs_Qmult.
    rewrite (Qabs_pos (pow2 e)) by (apply Qlt_le_weak, pow2_pos).
    assert (Qabs (inject_Z m) <= 2047).
    { rewrite <- (Zabs_Qabs m 1). unfold Qle; cbn. lia. }
    assert (pow2 e <= 32).
    { change 32 with (pow2 5). apply pow2_le. lia. }
    pose proof (pow2_pos e). pose proof (Qabs_nonneg (inject_Z m)).
    unfold fp16_max. nra. }
  rewrite Hb. eauto.
Qed.

(** It does not change when rounded to 16 bits and back. *)
Lemma round_trip_error_representable v :
  fp16_representable v → ∃ z, round_trip_error v = Fin z ∧ z == 0.
Proof.
  intros (q & m & e & -> & Hm & He & Heq).
  destruct (round_fp16_representable q m e Hm He Heq) as (r & Hr & Hrq).
  unfold round_trip_error. rewrite Hr. cbn [fsub fabs].
  eexists; split; [done|]. rewrite Hrq.
  unfold Qminus. by rewrite Qplus_opp_r.
Qed.

(** In the binade of [2^(e+10)], whose step is [2^e], the rounding is the
    multiple of the step less than half a step away. *)
Lemma round_fp16_nearest q e n :
  (-24 <= e)%Z → pow2 (e + 10) <= q → q < pow2 (e + 11) →
  inject_Z n - (1 # 2) < q / pow2 e → q / pow2 e < inject_Z n + (1 # 2) →
  Qabs (inject_Z n * pow2 e) <= fp16_max →
  round_fp16 (Fin q) = Fin (Qred (inject_Z n * pow2 e)).
Proof.
  intros He Hlo Hhi Hn1 Hn2 Hmax. unfold round_fp16.
  assert (0 < q) as Hq by (pose proof (pow2_pos (e + 10)); lra).
  assert (Qeq_bool q 0 = false) as ->.
  { destruct (Qeq_bool q 0) eqn:E0; [|done]. apply Qeq_bool_iff in E0. lra. }
  assert (fp16_exponent q = e) as ->.
  { unfold fp16_exponent. rewrite (Qfloor_log2_unique (Qabs q) (e + 10)).
    - lia.
    - rewrite Qabs_pos; lra.
    - rewrite Qabs_pos by lra.
      by replace (e + 10 + 1)%Z with (e + 11)%Z by lia. }
  rewrite (round_half_even_near _ n Hn1 Hn2). cbv zeta.
  assert (Qle_bool (Qabs (Qred (inject_Z n * pow2 e))) fp16_max = true) as ->;
    [|done].
  apply Qle_bool_iff. by rewrite Qred_correct.
Qed.

Lemma flt_Fin x y : flt (Fin x) (Fin y) = true ↔ x < y.
Proof.
  cbn. rewrite negb_true_iff. split.
  - intros H. apply Qnot_le_lt. intros Hle. apply Qle_bool_iff in Hle. congruence.
  - intros H. destruct (Qle_bool y x) eqn:E; [|done].
    apply Qle_bool_iff in E. lra.
Qed.

Lemma flt_Fin_false x y : flt (Fin x) (Fin y) = false ↔ y <= x.
Proof. cbn. rewrite negb_false_iff. apply Qle_bool_iff. Qed.

(** One tenth, as a tensor holds it, is [819/8192] in 16 bits: about
    [2.4e-5] away. *)
Lemma tenth_exceeds_tolerance v : stored_as v (1 # 10) → exceeds_tolerance v.
Proof.
  intros (q & -> & Hq). apply Qabs_diff_Qle_condition in Hq as [H1 H2].
  unfold exceeds_tolerance, round_trip_error.
  rewrite (round_fp16_nearest q (-14) 1638); [| done | | | | | ].
  - change (Qred (inject_Z 1638 * pow2 (-14))) with (819 # 8192).
    cbn [fsub fabs]. unfold threshold. apply flt_Fin.
    apply Qabs_gt. lra.
  - change (pow2 (-14 + 10)) with (1 # 16). lra.
  - change (pow2 (-14 + 11)) with (1 # 8). lra.
  - change (pow2 (-14)) with (1 # 16384). change (inject_Z 1638) with 1638.
    apply Qlt_shift_div_l; lra.
  - change (pow2 (-14)) with (1 # 16384). change (inject_Z 1638) with 1638.
    apply Qlt_shift_div_r; lra.
  - by vm_compute.
Qed.

Ltac flt_cases :=
  repeat match goal with
  | H : flt (Fin _) (Fin _) = true |- _ => apply flt_Fin in H
  | H : flt (Fin _) (Fin _) = false |- _ => apply flt_Fin_false in H
  | |- flt (Fin _) (Fin _) = true => apply flt_Fin
  | |- flt (Fin _) (Fin _) = false => apply flt_Fin_false
  | s : bool |- _ => destruct s
  end; cbn in *; try done; try lra.

Lemma fmax_above_l (t : Q) a b :
  flt (Fin t) a = true → flt (fmax a b) (Fin t) = false.
Proof.
  intros Ha. destruct a as [x|s|], b as [y|s'|]; try done; unfold fmax.
  - destruct (flt (Fin x) (Fin y)) eqn:E; flt_cases.
  - destruct (flt (Fin x) (Inf s')) eqn:E; flt_cases.
  - destruct (flt (Inf s) (Fin y)) eqn:E; flt_cases.
  - destruct (flt (Inf s) (Inf s')) eqn:E; flt_cases.
Qed.

Lemma fmax_above_r (t : Q) a b :
  flt b (Fin t) = false → flt (fmax a b) (Fin t) = false.
Proof.
  intros Hb. destruct a as [x|s|], b as [y|s'|]; try done; unfold fmax.
  - destruct (flt (Fin x) (Fin y)) eqn:E; flt_cases.
  - destruct (flt (Fin x) (Inf s')) eqn:E; flt_cases.
  - destruct (flt (Inf s) (Fin y)) eqn:E; flt_cases.
  - destruct (flt (Inf s) (Inf s')) eqn:E; flt_cases.
Qed.

(** A maximum is not below what one of the elements is above. *)
Lemma amax_above (t : Q) (z : fval) (ds : list fval) d :
  d ∈ ds → flt (Fin t) d = true → flt (foldr fmax z ds) (Fin t) = false.
Proof.
  intros Hin Hd. induction Hin as [d ds|d d' ds _ IH]; cbn [foldr].
  - by apply fmax_above_l.
  - by apply fmax_above_r, IH.
Qed.

Lemma amax_zero (ds : list fval) :
  Forall (fun d => ∃ z, d = Fin z ∧ z == 0) ds →
  ∃ z, foldr fmax (Fin 0) ds = Fin z ∧ z == 0.
Proof.
  induction 1 as [|d ds (z & -> & Hz) _ (z' & IH & Hz')]; cbn [foldr].
  - by exists 0.
  - rewrite IH. unfold fmax.
    destruct (flt (Fin z) (Fin z')); [exists z'|exists z]; split; auto.
Qed.

End FloatFacts.

(** ** The measured difference *)

Lemma max_diff_exceeds t v :
  data_type t = FLOAT → v ∈ float_data t → exceeds_tolerance v →
  ∃ d, float_to_float16_max_diff (Some t) = Ok d
       ∧ Float.flt d Float.threshold = false.
Proof.
  intros Hty Hin Hv. unfold float_to_float16_max_diff. rewrite Hty.
  destruct (float_data t) as [|w ws]; [by apply elem_of_nil in Hin|].
  eexists; split; [done|].
  apply (amax_above _ _ _ (Float.round_trip_error v)); [|exact Hv].
  by apply list_elem_of_fmap_2.
Qed.

Lemma max_diff_representable t :
  data_type t = FLOAT → float_data t ≠ [] →
  Forall fp16_representable (float_data t) →
  ∃ d, float_to_float16_max_diff (Some t) = Ok d
       ∧ Float.flt d Float.threshold = true.
Proof.
  intros Hty Hne Hall. unfold float_to_float16_max_diff. rewrite Hty.
  destruct (float_data t) as [|w ws]; [done|].
  destruct (amax_zero (Float.round_trip_error <$> w :: ws)) as (z & Hz & Hz0).
  { apply Forall_fmap. eapply Forall_impl; [exact Hall|].
    intros v Hv. by apply round_trip_error_representable. }
  exists (Fin z). split; [by rewrite Hz|].
  apply flt_Fin. rewrite Hz0. reflexivity.
Qed.

(** The two errors of the measurement. *)
Lemma max_diff_raises tensor e :
  float_to_float16_max_diff tensor = Raise e →
  (e = ValueError
   ∧ (tensor = None ∨ ∃ t, tensor = Some t ∧ data_type t ≠ FLOAT))
  ∨ (e = RuntimeError
     ∧ ∃ t, tensor = Some t ∧ data_type t = FLOAT ∧ float_data t = []).
Proof.
  destruct tensor as [t|]; cbn.
  - destruct (data_type t) eqn:Hty.
    + destruct (float_data t) eqn:Hdata; [|done].
      intros [= <-]. right. split; [done|]. by exists t.
    + intros [= <-]. left. split; [done|]. right. exists t. by rewrite Hty.
    + intros [= <-]. left. split; [done|]. right. exists t. by rewrite Hty.
    + intros [= <-]. left. split; [done|]. right. exists t. by rewrite Hty.
  - intros [= <-]. left. split; [done|]. by left.
Qed.

(** ** The output-name map *)

Lemma insert_outputs_is_Some (n : NodeProto) (os : list string)
    (acc : gmap string NodeProto) (o : string) :
  is_Some (foldl (fun acc' o' => <[o' := n]> acc') acc os !! o)
  ↔ is_Some (acc !! o) ∨ o ∈ os.
Proof.
  revert acc. induction os as [|o' os IH]; intros acc; cbn [foldl].
  - rewrite elem_of_nil. tauto.
  - rewrite IH, lookup_insert_is_Some', elem_of_cons.
    split; [intros [[?|?]|?] | intros [?|[?|?]]]; subst; auto.
Qed.

Lemma fold_nodes_is_Some (ns : list NodeProto) (acc : gmap string NodeProto) (o : string) :
  is_Some (foldl (fun acc n => foldl (fun acc' o' => <[o' := n]> acc') acc (node_output n))
                 acc ns !! o)
  ↔ is_Some (acc !! o) ∨ ∃ n, n ∈ ns ∧ o ∈ node_output n.
Proof.
  revert acc. induction ns as [|n ns IH]; intros acc; cbn [foldl].
  - split; [auto|]. intros [?|(n & Hn & _)]; [done|]. by apply elem_of_nil in Hn.
  - rewrite IH, insert_outputs_is_Some. split.
    + intros [[?|?]|(n' & ? & ?)]; [by left| |].
      * right. exists n. split; [apply list_elem_of_here|done].
      * right. exists n'. split; [by apply list_elem_of_further|done].
    + intros [?|(n' & Hn' & ?)]; [by left; left|].
      apply elem_of_cons in Hn' as [->|?]; [by left; right|].
      right. by exists n'.
Qed.

(** The map has an entry for a name exactly when some node lists it among
    its outputs. *)
Lemma output_name_to_node_is_Some (onnx_model : OnnxModel) (o : string) :
  is_Some (output_name_to_node onnx_model !! o)
  ↔ ∃ n, n ∈ nodes onnx_model ∧ o ∈ node_output n.
Proof.
  unfold output_name_to_node. rewrite fold_nodes_is_Some, lookup_empty.
  split; [|by right]. intros [[? ?]|?]; done.
Qed.

(** ** The search for the weight *)

Lemma get_initializer_None onnx_model i :
  get_initializer onnx_model i = None
  ↔ ∀ t, t ∈ initializer (graph onnx_model) → tensor_name t ≠ i.
Proof.
  unfold get_initializer.
  induction (initializer (graph onnx_model)) as [|t l IH]; cbn [List.find].
  - split; [|done]. intros _ t Ht. by apply elem_of_nil in Ht.
  - destruct (String.eqb_spec (tensor_name t) i) as [E|E].
    + split; [done|]. intros H. destruct (H t); [apply list_elem_of_here|done].
    + rewrite IH. split.
      * intros H t' Ht'. apply elem_of_cons in Ht' as [->|Ht']; auto.
      * intros H t' Ht'. apply H. by apply list_elem_of_further.
Qed.

Lemma get_initializer_Some onnx_model i t :
  get_initializer onnx_model i = Some t
  ↔ tensor_name t = i
    ∧ ∃ earlier later,
        initializer (graph onnx_model) = (earlier ++ t :: later)%list
        ∧ ∀ t', t' ∈ earlier → tensor_name t' ≠ i.
Proof.
  unfold get_initializer.
  induction (initializer (graph onnx_model)) as [|t0 l IH]; cbn [List.find].
  - split; [done|]. intros (_ & earlier & later & E & _). by destruct earlier.
  - destruct (String.eqb_spec (tensor_name t0) i) as [E|E].
    + split.
      * intros [= <-]. split; [done|]. exists [], l. split; [done|].
        intros t' Ht'. by apply elem_of_nil in Ht'.
      * intros (Hname & earlier & later & Hl & Hfirst).
        destruct earlier as [|t1 earlier]; cbn [app] in Hl.
        -- by injection Hl as ->.
        -- injection Hl as -> _. destruct (Hfirst t1); [apply list_elem_of_here|done].
    + rewrite IH. split.
      * intros (Hname & earlier & later & -> & Hfirst). split; [done|].
        exists (t0 :: earlier), later. split; [done|].
        intros t' Ht'. apply elem_of_cons in Ht' as [->|Ht']; auto.
      * intros (Hname & earlier & later & Hl & Hfirst). split; [done|].
        destruct earlier as [|t1 earlier]; cbn [app] in Hl.
        -- injection Hl as -> _. done.
        -- injection Hl as -> ->. exists earlier, later. split; [done|].
           intros t' Ht'. apply Hfirst. by apply list_elem_of_further.
Qed.

Lemma find_initializer_None onnx_model inputs :
  find_initializer onnx_model inputs = None
  ↔ ∀ i, i ∈ inputs → get_initializer onnx_model i = None.
Proof.
  induction inputs as [|i inputs IH]; cbn [find_initializer].
  - split; [|done]. intros _ i Hi. by apply elem_of_nil in Hi.
  - destruct (get_initializer onnx_model i) as [t|] eqn:E.
    + split; [done|]. intros H. rewrite (H i) in E; [done|apply list_elem_of_here].
    + rewrite IH. split.
      * intros H j Hj. apply elem_of_cons in Hj as [->|Hj]; auto.
      * intros H j Hj. apply H. by apply list_elem_of_further.
Qed.

(** The loop of lines 245-248 ends on the weight of the node, and on nothing
    else. *)
Lemma find_initializer_weight onnx_model n t :
  find_initializer onnx_model (node_input n) = Some t
  ↔ weight_initializer onnx_model n t.
Proof.
  unfold weight_initializer.
  induction (node_input n) as [|i inputs IH]; cbn [find_initializer].
  - split; [done|]. intros (before & after & _ & _ & E & _). by destruct before.
  - destruct (get_initializer onnx_model i) as [t0|] eqn:Hi.
    + apply get_initializer_Some in Hi as (Hname & earlier & later & Hl & Hfirst).
      split.
      * intros [= <-]. exists [], inputs, earlier, later. subst i.
        split; [done|]. split; [done|]. split; [done|].
        intros t' _ Hin. by apply elem_of_nil in Hin.
      * intros (before & after & earlier' & later' & Hin & Hl' & Hfirst' & Hbefore).
        destruct before as [|j before]; cbn [app] in Hin.
        -- injection Hin as -> _.
           assert (get_initializer onnx_model (tensor_name t) = Some t) as Ht.
           { apply get_initializer_Some. split; [done|]. by exists earlier', later'. }
           assert (get_initializer onnx_model (tensor_name t) = Some t0) as Ht0.
           { apply get_initializer_Some. split; [done|]. by exists earlier, later. }
           congruence.
        -- injection Hin as -> _. destruct (Hbefore t0).
           ++ rewrite Hl. apply elem_of_app. right. apply list_elem_of_here.
           ++ rewrite Hname. apply list_elem_of_here.
    + rewrite IH. pose proof (proj1 (get_initializer_None _ _) Hi) as Hnone. split.
      * intros (before & after & earlier & later & -> & Hl & Hfirst & Hbefore).
        exists (i :: before), after, earlier, later.
        split; [done|]. split; [done|]. split; [done|].
        intros t' Ht' Hin. apply elem_of_cons in Hin as [E|Hin].
        -- by apply (Hnone t' Ht').
        -- by apply (Hbefore t' Ht').
      * intros (before & after & earlier & later & Hin & Hl & Hfirst & Hbefore).
        destruct before as [|j before]; cbn [app] in Hin.
        -- injection Hin as -> _. destruct (Hnone t); [|done].
           rewrite Hl. apply elem_of_app. right. apply list_elem_of_here.
        -- injection Hin as -> ->. exists before, after, earlier, later.
           split; [done|]. split; [done|]. split; [done|].
           intros t' Ht' Hin. apply (Hbefore t' Ht'). by apply list_elem_of_further.
Qed.

(** The plain case: the one initializer of the graph that an input of the
    node names is its weight. *)
Lemma sole_initializer_weight onnx_model n t :
  t ∈ initializer (graph onnx_model) →
  tensor_name t ∈ node_input n →
  (∀ t', t' ∈ initializer (graph onnx_model) →
         tensor_name t' ∈ node_input n → t' = t) →
  weight_initializer onnx_model n t.
Proof.
  intros Ht Hname Hsole. apply find_initializer_weight.
  destruct (find_initializer onnx_model (node_input n)) as [t'|] eqn:Hfind.
  - f_equal. apply find_initializer_weight in Hfind
      as (before & after & earlier & later & Hin & Hl & _).
    apply Hsole.
    + rewrite Hl. apply elem_of_app. right. apply list_elem_of_here.
    + rewrite Hin. apply elem_of_app. right. apply list_elem_of_here.
  - exfalso. pose proof (proj1 (find_initializer_None _ _) Hfind _ Hname) as Hnone.
    by apply (proj1 (get_initializer_None _ _) Hnone t).
Qed.

(** ** The function at the node of the first output *)

Lemma auto_mixed_precision_at_node convert_float_to_float16 onnx_model op_block_list o n :
  produces_first_output onnx_model o n →
  auto_mixed_precision convert_float_to_float16 onnx_model op_block_list =
    if String.eqb (op_type n) "MatMul" then
      let* max_diff :=
        float_to_float16_max_diff (find_initializer onnx_model (node_input n)) in
      let parameters :=
        if Float.flt max_diff Float.threshold
        then unpinned_parameters op_block_list true
        else fp32_parameters op_block_list o n in
      Ok (parameters, convert_float_to_float16 parameters onnx_model)
    else
      Ok (unpinned_parameters op_block_list false,
          convert_float_to_float16 (unpinned_parameters op_block_list false) onnx_model).
Proof.
  intros [Hout Hnode]. unfold auto_mixed_precision, first_output.
  destruct (output (graph onnx_model)) as [|vi rest]; [done|].
  injection Hout as <-. cbn [bind]. rewrite Hnode.
  destruct (String.eqb (op_type n) "MatMul"); [|done].
  destruct (float_to_float16_max_diff _) as [d|e]; [|done].
  cbn [bind]. by destruct (Float.flt d Float.threshold).
Qed.

Lemma auto_mixed_precision_no_initializer
    convert_float_to_float16 onnx_model op_block_list o n :
  produces_first_output onnx_model o n →
  op_type n = "MatMul" →
  find_initializer onnx_model (node_input n) = None →
  auto_mixed_precision convert_float_to_float16 onnx_model op_block_list
  = Raise ValueError.
Proof.
  intros Hp Hop Hnone.
  rewrite (auto_mixed_precision_at_node _ _ _ _ _ Hp), Hop, Hnone. done.
Qed.

(** The ways in which the call fails: on the first output, on the assertion,
    and out of the measurement of the weight. *)
Lemma auto_mixed_precision_raises convert_float_to_float16 onnx_model op_block_list e :
  auto_mixed_precision convert_float_to_float16 onnx_model op_block_list = Raise e →
  (e = IndexError ∧ output (graph onnx_model) = [])
  ∨ (e = AssertionError
     ∧ ∃ vi rest, output (graph onnx_model) = vi :: rest
                  ∧ output_name_to_node onnx_model !! value_name vi = None)
  ∨ ((e = ValueError ∨ e = RuntimeError)
     ∧ ∃ o n, produces_first_output onnx_model o n
              ∧ op_type n = "MatMul"
              ∧ float_to_float16_max_diff (find_initializer onnx_model (node_input n))
                = Raise e).
Proof.
  unfold auto_mixed_precision, first_output, produces_first_output.
  destruct (output (graph onnx_model)) as [|vi rest]; cbn [bind].
  { intros [= <-]. by left. }
  destruct (output_name_to_node onnx_model !! value_name vi) as [n|] eqn:Hn.
  2: { intros [= <-]. right; left. split; [done|]. by exists vi, rest. }
  destruct (String.eqb (op_type n) "MatMul") eqn:Hop; [|done].
  destruct (float_to_float16_max_diff _) as [d|e'] eqn:Hd; cbn [bind].
  { by destruct (Float.flt _ _). }
  intros [= <-]. right; right. split.
  - apply max_diff_raises in Hd as [[-> _]|[-> _]]; auto.
  - exists (value_name vi), n. by apply String.eqb_eq in Hop.
Qed.

(** ** The derived policy *)

(** Claim C1, as the code has it: when the node that produces the first
    declared output is not a MatMul, the detection reports 32-bit weights
    ([force_fp16_initializers = false]) and no node is pinned, and
    [keep_io_types] is empty as well: the output name is kept only together
    with a last MatMul node. *)
Theorem non_matmul_policy convert_float_to_float16 onnx_model op_block_list o n :
  produces_first_output onnx_model o n →
  op_type n ≠ "MatMul" →
  auto_mixed_precision convert_float_to_float16 onnx_model op_block_list =
    Ok (unpinned_parameters op_block_list false,
        convert_float_to_float16 (unpinned_parameters op_block_list false) onnx_model).
Proof.
  intros Hp Hop. rewrite (auto_mixed_precision_at_node _ _ _ _ _ Hp).
  apply String.eqb_neq in Hop. by rewrite Hop.
Qed.

Lemma non_matmul_policy_witness :
  auto_mixed_precision unconverted biased_logits_model default_op_block_list =
    Ok (unpinned_parameters default_op_block_list false,
        unconverted (unpinned_parameters default_op_block_list false)
                    biased_logits_model).
Proof.
  apply (non_matmul_policy unconverted biased_logits_model default_op_block_list
           "logits" add_node).
  - split; vm_compute; reflexivity.
  - vm_compute. discriminate.
Defined.

(** Claim C1, as stated, fails on a graph whose "logits" come out of an Add
    node: the output name is not in [keep_io_types]. *)
Lemma non_matmul_output_type_not_kept :
  produces_first_output biased_logits_model "logits" add_node
  ∧ op_type add_node ≠ "MatMul"
  ∧ ¬ ∃ p converted,
        auto_mixed_precision unconverted biased_logits_model default_op_block_list
        = Ok (p, converted)
        ∧ force_fp16_initializers p = false
        ∧ node_block_list p = []
        ∧ "logits" ∈ keep_io_types p.
Proof.
  split; [split; vm_compute; reflexivity|].
  split; [vm_compute; discriminate|].
  intros (p & converted & H & _ & _ & Hin).
  vm_compute in H. injection H as Hp _. rewrite <- Hp in Hin.
  cbn in Hin. by apply elem_of_nil in Hin.
Qed.

(** Claim C2 at a graph whose last MatMul has no constant input: the call
    does not fall back to 32-bit weights, it raises out of
    [float_to_float16_max_diff], and no parameters are derived, whatever the
    conversion would do. *)
Theorem matmul_without_initializer_raises convert_float_to_float16 :
  produces_first_output dynamic_weight_model "logits" matmul_node
  ∧ op_type matmul_node = "MatMul"
  ∧ (∀ i, i ∈ node_input matmul_node → get_initializer dynamic_weight_model i = None)
  ∧ auto_mixed_precision convert_float_to_float16 dynamic_weight_model
      default_op_block_list = Raise ValueError.
Proof.
  assert (Hp : produces_first_output dynamic_weight_model "logits" matmul_node)
    by (split; vm_compute; reflexivity).
  split; [exact Hp|]. split; [reflexivity|]. split.
  - by apply find_initializer_None.
  - by apply (auto_mixed_precision_no_initializer _ _ _ _ _ Hp).
Qed.

(** Claim C4, for a weight of 32-bit floats: when some value of the weight of
    the MatMul that produces the first output changes by more than 1e-6 on
    the way to 16 bits and back, the weights count as 32-bit, and exactly the
    first output and that MatMul node are kept in 32 bits. *)
Theorem fp32_weights_policy convert_float_to_float16 onnx_model op_block_list o n t :
  produces_first_output onnx_model o n →
  op_type n = "MatMul" →
  weight_initializer onnx_model n t →
  data_type t = FLOAT →
  (∃ v, v ∈ float_data t ∧ exceeds_tolerance v) →
  auto_mixed_precision convert_float_to_float16 onnx_model op_block_list =
    Ok (fp32_parameters op_block_list o n,
        convert_float_to_float16 (fp32_parameters op_block_list o n) onnx_model).
Proof.
  intros Hp Hop Ht Hty (v & Hin & Hv).
  apply find_initializer_weight in Ht.
  rewrite (auto_mixed_precision_at_node _ _ _ _ _ Hp), Hop, Ht.
  destruct (max_diff_exceeds t v Hty Hin Hv) as (d & -> & Hd).
  cbn. by rewrite Hd.
Qed.

Lemma fp32_weights_policy_witness :
  let weights := [Fin (123456789 # 1000); Fin (1 # 100000)] in
  auto_mixed_precision unconverted (logits_model weights) default_op_block_list =
    Ok (fp32_parameters default_op_block_list "logits" matmul_node,
        unconverted (fp32_parameters default_op_block_list "logits" matmul_node)
                    (logits_model weights)).
Proof.
  intros weights.
  apply (fp32_weights_policy unconverted _ _ _ _ (proj_out_weight weights)).
  - split; vm_compute; reflexivity.
  - reflexivity.
  - exists ["hidden_states"], [], [], []. repeat split.
    + intros t' Ht'. by apply elem_of_nil in Ht'.
    + intros t' Ht'. apply list_elem_of_singleton in Ht' as ->.
      simpl. intros Hin. apply list_elem_of_singleton in Hin. discriminate Hin.
  - reflexivity.
  - exists (Fin (123456789 # 1000)). split.
    + apply list_elem_of_here.
    + vm_compute; reflexivity.
Defined.

(** Claim C4, as stated, fails for a weight that is not of 32-bit floats: a
    weight of 64-bit floats holding 0.1, which changes by about 2.4e-5 on the
    way to 16 bits and back, is refused by the measurement, and the call
    raises instead of deriving the policy. *)
Lemma double_weight_no_policy :
  produces_first_output double_weight_model "logits" matmul_node
  ∧ op_type matmul_node = "MatMul"
  ∧ weight_initializer double_weight_model matmul_node double_weight
  ∧ (∃ v, v ∈ float_data double_weight ∧ exceeds_tolerance v)
  ∧ auto_mixed_precision unconverted double_weight_model default_op_block_list
    = Raise ValueError.
Proof.
  split; [split; vm_compute; reflexivity|].
  split; [reflexivity|]. split.
  - exists ["hidden_states"], [], [], []. repeat split.
    + intros t' Ht'. by apply elem_of_nil in Ht'.
    + intros t' Ht'. apply list_elem_of_singleton in Ht' as ->.
      simpl. intros Hin. apply list_elem_of_singleton in Hin. discriminate Hin.
  - split; [|vm_compute; reflexivity].
    exists (Fin (1 # 10)). split; [apply list_elem_of_here|vm_compute; reflexivity].
Qed.

(** Claim C5, for a weight of 32-bit floats that holds values, all of them
    finite: when every value of the weight of the MatMul that produces the
    first output is a finite value of the 16-bit format, the weights count as
    16-bit ([force_fp16_initializers = true]) and neither an output type nor
    a node is kept in 32 bits. *)
Theorem fp16_weights_policy convert_float_to_float16 onnx_model op_block_list o n t :
  produces_first_output onnx_model o n →
  op_type n = "MatMul" →
  weight_initializer onnx_model n t →
  data_type t = FLOAT →
  float_data t ≠ [] →
  Forall fp16_representable (float_data t) →
  auto_mixed_precision convert_float_to_float16 onnx_model op_block_list =
    Ok (unpinned_parameters op_block_list true,
        convert_float_to_float16 (unpinned_parameters op_block_list true) onnx_model).
Proof.
  intros Hp Hop Ht Hty Hne Hall.
  apply find_initializer_weight in Ht.
  rewrite (auto_mixed_precision_at_node _ _ _ _ _ Hp), Hop, Ht.
  destruct (max_diff_representable t Hty Hne Hall) as (d & -> & Hd).
  cbn. by rewrite Hd.
Qed.

Lemma fp16_weights_policy_witness :
  let weights := [Fin (1 # 2); Fin (-3 # 4); Fin 65504; Fin 0] in
  auto_mixed_precision unconverted (logits_model weights) default_op_block_list =
    Ok (unpinned_parameters default_op_block_list true,
        unconverted (unpinned_parameters default_op_block_list true)
                    (logits_model weights)).
Proof.
  intros weights.
  apply (fp16_weights_policy unconverted _ _ "logits" matmul_node
           (proj_out_weight weights)).
  - split; vm_compute; reflexivity.
  - reflexivity.
  - exists ["hidden_states"], [], [], []. repeat split.
    + intros t' Ht'. by apply elem_of_nil in Ht'.
    + intros t' Ht'. apply list_elem_of_singleton in Ht' as ->.
      simpl. intros Hin. apply list_elem_of_singleton in Hin. discriminate Hin.
  - reflexivity.
  - simpl. discriminate.
  - repeat apply Forall_cons_2; [| | | |apply Forall_nil_2].
    + exists (1 # 2)%Q, 1%Z, (-1)%Z. vm_compute. repeat split; discriminate.
    + exists (-3 # 4)%Q, (-3)%Z, (-2)%Z. vm_compute. repeat split; discriminate.
    + exists 65504%Q, 2047%Z, 5%Z. vm_compute. repeat split; discriminate.
    + exists 0%Q, 0%Z, 0%Z. vm_compute. repeat split; discriminate.
Defined.

(** Claim C5, as stated, fails in three ways.  An infinity is a value of the
    16-bit format, and rounding leaves it as it is, but its difference from
    itself is not a number and not below the threshold: the weights count as
    32-bit.  A weight already stored as 16-bit floats, and a weight that
    holds no value, are refused by the measurement: the call raises. *)
Lemma infinite_weight_not_fp16 :
  (produces_first_output (logits_model [Inf false]) "logits" matmul_node
   ∧ weight_initializer (logits_model [Inf false]) matmul_node
       (proj_out_weight [Inf false])
   ∧ Forall (fun v => Float.round_fp16 v = v) [Inf false]
   ∧ auto_mixed_precision unconverted (logits_model [Inf false]) default_op_block_list
     = Ok (fp32_parameters default_op_block_list "logits" matmul_node,
           logits_model [Inf false]))
  ∧ (produces_first_output half_weight_model "logits" matmul_node
     ∧ weight_initializer half_weight_model matmul_node half_weight
     ∧ Forall (fun v => Float.round_fp16 v = v) (float_data half_weight)
     ∧ auto_mixed_precision unconverted half_weight_model default_op_block_list
       = Raise ValueError)
  ∧ (produces_first_output (logits_model []) "logits" matmul_node
     ∧ weight_initializer (logits_model []) matmul_node (proj_out_weight [])
     ∧ auto_mixed_precision unconverted (logits_model []) default_op_block_list
       = Raise RuntimeError).
Proof.
  assert (Hw : ∀ onnx_model t,
             node_input matmul_node = ["hidden_states"; tensor_name t] →
             initializer (graph onnx_model) = [t] →
             weight_initializer onnx_model matmul_node t).
  { intros onnx_model t Hin Hinit. exists ["hidden_states"], [], [], [].
    split; [done|]. split; [done|]. split.
    - intros t' Ht'. by apply elem_of_nil in Ht'.
    - rewrite Hinit. intros t' Ht'. apply list_elem_of_singleton in Ht' as ->.
      injection Hin as <-. intros H. apply list_elem_of_singleton in H.
      discriminate H. }
  split; [|split].
  - split; [split; vm_compute; reflexivity|].
    split; [by apply Hw|]. split; [|vm_compute; reflexivity].
    apply Forall_cons_2; [reflexivity|apply Forall_nil_2].
  - split; [split; vm_compute; reflexivity|].
    split; [by apply Hw|]. split; [|vm_compute; reflexivity].
    repeat apply Forall_cons_2; [| |apply Forall_nil_2]; vm_compute; reflexivity.
  - split; [split; vm_compute; reflexivity|].
    split; [by apply Hw|]. vm_compute; reflexivity.
Qed.

(** Claim C3, as the code has it: when the 32-bit weight of the MatMul that
    produces "logits" holds 0.1, 0.2 and 0.3, the values do not survive the
    way to 16 bits and back within 1e-6 (0.1 becomes 819/8192, about 2.4e-5
    less), so [force_fp16_initializers] is false, and "logits" and the MatMul
    node are kept in 32 bits. *)
Theorem logits_tenths_policy convert_float_to_float16 onnx_model op_block_list n t :
  produces_first_output onnx_model "logits" n →
  op_type n = "MatMul" →
  weight_initializer onnx_model n t →
  data_type t = FLOAT →
  Forall2 stored_as (float_data t) [1 # 10; 2 # 10; 3 # 10]%Q →
  auto_mixed_precision convert_float_to_float16 onnx_model op_block_list =
    Ok (fp32_parameters op_block_list "logits" n,
        convert_float_to_float16 (fp32_parameters op_block_list "logits" n) onnx_model).
Proof.
  intros Hp Hop Ht Hty Hvals.
  apply find_initializer_weight in Ht.
  rewrite (auto_mixed_precision_at_node _ _ _ _ _ Hp), Hop, Ht.
  inversion Hvals as [|v d vs ds Hv _ Hdata]; subst.
  destruct (max_diff_exceeds t v) as (diff & -> & Hdiff).
  - done.
  - rewrite <- Hdata. apply list_elem_of_here.
  - by apply tenth_exceeds_tolerance.
  - cbn. by rewrite Hdiff.
Qed.

Lemma logits_tenths_policy_witness :
  let weights := [Fin (1 # 10); Fin (13421773 # 67108864); Fin (3 # 10)] in
  auto_mixed_precision unconverted (logits_model weights) default_op_block_list =
    Ok (fp32_parameters default_op_block_list "logits" matmul_node,
        unconverted (fp32_parameters default_op_block_list "logits" matmul_node)
                    (logits_model weights)).
Proof.
  intros weights.
  apply (logits_tenths_policy unconverted _ _ matmul_node (proj_out_weight weights)).
  - split; vm_compute; reflexivity.
  - reflexivity.
  - exists ["hidden_states"], [], [], []. repeat split.
    + intros t' Ht'. by apply elem_of_nil in Ht'.
    + intros t' Ht'. apply list_elem_of_singleton in Ht' as ->.
      simpl. intros Hin. apply list_elem_of_singleton in Hin. discriminate Hin.
  - reflexivity.
  - repeat apply Forall2_cons_2; [| | |apply Forall2_nil_2].
    + exists (1 # 10)%Q. split; [reflexivity|]. vm_compute. discriminate.
    + exists (13421773 # 67108864)%Q. split; [reflexivity|]. vm_compute. discriminate.
    + exists (3 # 10)%Q. split; [reflexivity|]. vm_compute. discriminate.
Defined.

(** Claim C3, as stated, fails: for the weights 0.1, 0.2, 0.3, taken exactly
    or as the nearest 32-bit floats, the policy derived is not the all-16-bit
    one. *)
Lemma logits_tenths_not_fp16 :
  (¬ ∃ p converted,
       auto_mixed_precision unconverted
         (logits_model [Fin (1 # 10); Fin (2 # 10); Fin (3 # 10)])
         default_op_block_list = Ok (p, converted)
       ∧ force_fp16_initializers p = true
       ∧ node_block_list p = []
       ∧ keep_io_types p = [])
  ∧ (¬ ∃ p converted,
         auto_mixed_precision unconverted
           (logits_model [Fin (13421773 # 134217728); Fin (13421773 # 67108864);
                          Fin (10066330 # 33554432)])
           default_op_block_list = Ok (p, converted)
         ∧ force_fp16_initializers p = true
         ∧ node_block_list p = []
         ∧ keep_io_types p = []).
Proof.
  split; intros (p & converted & H & Hforce & _ & _); vm_compute in H;
    injection H as Hp _; rewrite <- Hp in Hforce; discriminate Hforce.
Qed.

(** Claim C6: a graph that declares no output makes the call fail with the
    error of [output[0]], and no graph that declares an output does. *)
Theorem missing_output_error convert_float_to_float16 onnx_model op_block_list :
  (output (graph onnx_model) = [] →
   auto_mixed_precision convert_float_to_float16 onnx_model op_block_list
   = Raise IndexError)
  ∧ (output (graph onnx_model) ≠ [] →
     auto_mixed_precision convert_float_to_float16 onnx_model op_block_list
     ≠ Raise IndexError).
Proof.
  split.
  - unfold auto_mixed_precision, first_output. by intros ->.
  - intros Hout Hraise.
    apply auto_mixed_precision_raises in Hraise as [[_ ?]|[[? _]|[[?|?] _]]]; done.
Qed.

Lemma missing_output_error_witness :
  auto_mixed_precision unconverted no_output_model default_op_block_list
  = Raise IndexError
  ∧ auto_mixed_precision unconverted (logits_model [Fin (1 # 2)]) default_op_block_list
    ≠ Raise IndexError.
Proof.
  split.
  - apply (proj1 (missing_output_error unconverted no_output_model
                    default_op_block_list)).
    reflexivity.
  - apply (proj2 (missing_output_error unconverted (logits_model [Fin (1 # 2)])
                                       default_op_block_list)).
    simpl. discriminate.
Defined.

(** Claim C9: when no node lists the first declared output among its
    outputs, the name is missing from the output-name map and the call fails
    on its assertion, with no parameters derived; when some node does, the
    assertion holds. *)
Theorem unproduced_output_assertion
    convert_float_to_float16 onnx_model op_block_list vi rest :
  output (graph onnx_model) = vi :: rest →
  ((∀ n, n ∈ nodes onnx_model → value_name vi ∉ node_output n) →
   output_name_to_node onnx_model !! value_name vi = None
   ∧ auto_mixed_precision convert_float_to_float16 onnx_model op_block_list
     = Raise AssertionError)
  ∧ ((∃ n, n ∈ nodes onnx_model ∧ value_name vi ∈ node_output n) →
     auto_mixed_precision convert_float_to_float16 onnx_model op_block_list
     ≠ Raise AssertionError).
Proof.
  intros Hout. split.
  - intros Hnone.
    assert (output_name_to_node onnx_model !! value_name vi = None) as Hmap.
    { apply eq_None_not_Some. rewrite output_name_to_node_is_Some.
      intros (n & Hn & Ho). by apply (Hnone n). }
    split; [done|].
    unfold auto_mixed_precision, first_output. rewrite Hout. cbn [bind].
    by rewrite Hmap.
  - intros Hsome Hraise. apply output_name_to_node_is_Some in Hsome as [n Hn].
    apply auto_mixed_precision_raises in Hraise
      as [[? _]|[[_ (vi' & rest' & Hout' & Hnone)]|[[?|?] _]]]; [done| |done|done].
    rewrite Hout in Hout'. injection Hout' as <- _. congruence.
Qed.

Lemma unproduced_output_assertion_witness :
  auto_mixed_precision unconverted passthrough_model default_op_block_list
  = Raise AssertionError
  ∧ auto_mixed_precision unconverted (logits_model [Fin (1 # 2)]) default_op_block_list
    ≠ Raise AssertionError.
Proof.
  split.
  - apply (unproduced_output_assertion unconverted passthrough_model
             default_op_block_list
             {| value_name := "hidden_states"; elem_type := FLOAT |} []);
      [reflexivity|].
    intros n Hn. apply list_elem_of_singleton in Hn as ->.
    simpl. intros Hin. apply list_elem_of_singleton in Hin. discriminate Hin.
  - apply (unproduced_output_assertion unconverted (logits_model [Fin (1 # 2)])
             default_op_block_list {| value_name := "logits"; elem_type := FLOAT |} []);
      [reflexivity|].
    exists matmul_node. split; apply list_elem_of_here.
Defined.

(** Claim C10: in the parameters returned, [force_fp16_initializers = true]
    leaves [keep_io_types] and [node_block_list] empty, and [keep_io_types]
    is non-empty exactly when [node_block_list] is. *)
Theorem parameters_consistent
    convert_float_to_float16 onnx_model op_block_list p converted :
  auto_mixed_precision convert_float_to_float16 onnx_model op_block_list
  = Ok (p, converted) →
  (force_fp16_initializers p = true → keep_io_types p = [] ∧ node_block_list p = [])
  ∧ (keep_io_types p ≠ [] ↔ node_block_list p ≠ []).
Proof.
  unfold auto_mixed_precision, first_output.
  destruct (output (graph onnx_model)) as [|vi rest]; [done|]. cbn [bind].
  destruct (output_name_to_node onnx_model !! value_name vi) as [n|]; [|done].
  destruct (String.eqb (op_type n) "MatMul").
  - destruct (float_to_float16_max_diff _) as [d|e]; [|done]. cbn [bind].
    destruct (Float.flt d Float.threshold); intros [= <- _]; cbn;
      split; (done || (split; done)).
  - intros [= <- _]; cbn. split; done.
Qed.

Lemma parameters_consistent_witness :
  let p := fp32_parameters default_op_block_list "logits" matmul_node in
  (force_fp16_initializers p = true → keep_io_types p = [] ∧ node_block_list p = [])
  ∧ (keep_io_types p ≠ [] ↔ node_block_list p ≠ []).
Proof.
  apply (parameters_consistent unconverted
           (logits_model [Fin (123456789 # 1000); Fin (1 # 100000)])
           default_op_block_list _
           (unconverted
              (fp32_parameters default_op_block_list "logits" matmul_node)
              (logits_model [Fin (123456789 # 1000); Fin (1 # 100000)]))).
  vm_compute; reflexivity.
Defined.

(** * Properties of the rest of the helper and its neighbours *)

(** ** Strings and paths *)

Lemma append_nil_l s : "" +:+ s = s.
Proof. reflexivity. Qed.

Lemma append_cons a s t : String a s +:+ t = String a (s +:+ t).
Proof. reflexivity. Qed.

(** A split has at least one piece. *)
Lemma split_not_nil c s : split c s ≠ [].
Proof.
  destruct s as [|a s]; cbn [split]; [done|].
  destruct (Ascii.eqb a c); [done|]. by destruct (split c s).
Qed.

Lemma split_cons_other c a s :
  Ascii.eqb a c = false →
  ∃ w ws, split c s = w :: ws ∧ split c (String a s) = String a w :: ws.
Proof.
  intros Hac. cbn [split]. rewrite Hac.
  destruct (split c s) as [|w ws] eqn:E; [by apply split_not_nil in E|]. eauto.
Qed.

(** Splitting around a separator splits both sides. *)
Lemma split_app c a b :
  split c (a +:+ String c b) = (split c a ++ split c b)%list.
Proof.
  induction a as [|x a IH].
  - rewrite append_nil_l. cbn [split app]. by rewrite Ascii.eqb_refl.
  - rewrite append_cons. destruct (Ascii.eqb x c) eqn:Hx.
    + cbn [split]. rewrite Hx, IH. done.
    + destruct (split_cons_other c x a Hx) as (w & ws & Ha & ->).
      destruct (split_cons_other c x (a +:+ String c b) Hx) as (w' & ws' & Hab & ->).
      rewrite IH, Ha in Hab. injection Hab as <- <-. done.
Qed.

Lemma split_no_sep c s : contains c s = false → split c s = [s].
Proof.
  induction s as [|a s IH]; cbn [split contains]; [done|].
  intros [Ha Hs]%orb_false_iff. rewrite Ha, (IH Hs). done.
Qed.

Lemma split_Forall_no_sep c s : Forall (fun w => contains c w = false) (split c s).
Proof.
  induction s as [|a s IH]; cbn [split].
  - by repeat constructor.
  - destruct (Ascii.eqb a c) eqn:Ha; [by constructor|].
    destruct (split c s) as [|w ws].
    + repeat constructor. cbn [contains]. by rewrite Ha.
    + inversion IH; subst. constructor; [|done]. cbn [contains]. by rewrite Ha.
Qed.

Lemma join_cons sep x l : l ≠ [] → join sep (x :: l) = x +:+ sep +:+ join sep l.
Proof. by destruct l. Qed.

Lemma join_cons_head sep a w ws :
  join sep (String a w :: ws) = String a (join sep (w :: ws)).
Proof. by destruct ws. Qed.

(** Joining the pieces of a split gives the text back. *)
Lemma join_split c s : join (String c "") (split c s) = s.
Proof.
  induction s as [|a s IH]; cbn [split]; [done|].
  destruct (Ascii.eqb a c) eqn:Ha.
  - apply Ascii.eqb_eq in Ha as ->.
    rewrite join_cons by apply split_not_nil. by rewrite IH.
  - pose proof (split_not_nil c s). destruct (split c s) as [|w ws] eqn:E; [done|].
    by rewrite join_cons_head, IH.
Qed.

(** Splitting a join of pieces that are free of the separator gives the
    pieces back. *)
Lemma split_join c (l : list string) :
  l ≠ [] → Forall (fun w => contains c w = false) l →
  split c (join (String c "") l) = l.
Proof.
  induction l as [|x l IH]; [done|]. intros _ Hall.
  inversion Hall as [|? ? Hx Hl]; subst.
  destruct l as [|y l].
  - cbn [join]. by apply split_no_sep.
  - rewrite join_cons by done.
    change (String c "" +:+ join (String c "") (y :: l))
      with (String c (join (String c "") (y :: l))).
    rewrite split_app, (split_no_sep c x Hx), IH; done.
Qed.

Lemma append_assoc (a b c : string) : (a +:+ b) +:+ c = a +:+ b +:+ c.
Proof.
  induction a as [|x a IH]; [done|]. rewrite !append_cons. by rewrite IH.
Qed.

Lemma append_nil_r (a : string) : a +:+ "" = a.
Proof. induction a as [|x a IH]; [done|]. rewrite append_cons. by rewrite IH. Qed.

Lemma no_sep_startswith b : contains sep b = false → startswith_sep b = false.
Proof. destruct b as [|c b]; [done|]. cbn. by intros [? _]%orb_false_iff. Qed.

Lemma endswith_sep_inv a : endswith_sep a = true → ∃ y, a = y +:+ "/".
Proof.
  induction a as [|c a IH]; [done|]. cbn [endswith_sep].
  destruct a as [|c' a].
  - intros ->%Ascii.eqb_eq. by exists "".
  - intros H. destruct (IH H) as [y ->]. by exists (String c y).
Qed.

Lemma endswith_sep_append x b :
  b ≠ "" → contains sep b = false → endswith_sep (x +:+ b) = false.
Proof.
  intros Hb Hsep. induction x as [|c x IH].
  - rewrite append_nil_l. clear Hb. induction b as [|c b IH]; [done|].
    cbn [contains] in Hsep. apply orb_false_iff in Hsep as [Hc Hb].
    cbn [endswith_sep]. destruct b; [done|]. by apply IH.
  - rewrite append_cons. cbn [endswith_sep].
    destruct (x +:+ b) eqn:E; [|done].
    destruct x; [rewrite append_nil_l in E; congruence | by rewrite append_cons in E].
Qed.

(** Joined to a name without a slash, a path is that name, or ends in a slash
    and the name. *)
Lemma os_path_join_name a b :
  contains sep b = false →
  (a = "" ∧ os_path_join a b = b)
  ∨ (∃ y, a ≠ "" ∧ os_path_join a b = y +:+ String sep b
          ∧ (a = y +:+ "/" ∨ a = y)).
Proof.
  intros Hb. unfold os_path_join. rewrite (no_sep_startswith b Hb).
  destruct (String.eqb_spec a "") as [->|Ha]; [by left|]. right.
  cbn [orb]. destruct (endswith_sep a) eqn:He.
  - apply endswith_sep_inv in He as [y ->]. exists y.
    split; [done|]. split; [|by left]. by rewrite append_assoc.
  - exists a. split; [done|]. split; [|by right]. done.
Qed.

Lemma os_path_join_suffix a b : ∃ pre, os_path_join a b = pre +:+ b.
Proof.
  unfold os_path_join. destruct (startswith_sep b); [by exists ""|].
  destruct (_ || _)%bool; [by exists a|].
  exists (a +:+ "/"). by rewrite append_assoc.
Qed.

Lemma last_snoc_split (pre : list string) (b : string) :
  getitem_last (pre ++ [b])%list = Return b.
Proof. unfold getitem_last. by rewrite last_snoc. Qed.

Lemma getitem_last_split_Return c s : ∃ w, getitem_last (split c s) = Return w ∧ contains c w = false.
Proof.
  unfold getitem_last. pose proof (split_not_nil c s) as Hne.
  pose proof (split_Forall_no_sep c s) as Hall.
  destruct (last (split c s)) as [w|] eqn:E.
  - exists w. split; [done|]. apply last_Some in E as [l' E]. rewrite E in Hall.
    apply Forall_app in Hall as [_ Hw]. by inversion Hw.
  - by apply last_None in E.
Qed.

Lemma contains_append c a b : contains c (a +:+ b) = (contains c a || contains c b)%bool.
Proof.
  induction a as [|x a IH]; [done|]. rewrite append_cons. cbn [contains].
  by rewrite IH, orb_assoc.
Qed.

Lemma filter_nil_Forall {A} (f : A → bool) l :
  List.filter f l = [] ↔ Forall (fun x => f x = false) l.
Proof.
  induction l as [|x l IH]; cbn [List.filter]; [split; by constructor|].
  destruct (f x) eqn:E; split.
  - done.
  - inversion 1; congruence.
  - intros H. constructor; [done|]. by apply IH.
  - inversion 1; subst. by apply IH.
Qed.

Lemma parts_nil p :
  parts p = [] ↔
  startswith_sep p = false ∧ Forall (fun x => x = "" ∨ x = ".") (split sep p).
Proof.
  unfold parts, splitroot. destruct (startswith_sep p).
  - split; [|by intros [? _]]. by destruct (_ =? 2)%nat.
  - cbn [String.eqb]. rewrite filter_nil_Forall. split.
    + intros H. split; [done|]. eapply Forall_impl; [exact H|]. cbn.
      intros x Hx. apply andb_false_iff in Hx as [Hx|Hx];
        apply negb_false_iff, String.eqb_eq in Hx; auto.
    + intros [_ H]. eapply Forall_impl; [exact H|]. cbn.
      intros x [->| ->]; done.
Qed.

(** ** [get_onnx_path] *)

(** X1.  [get_onnx_path] fails, with an IndexError, exactly on a directory
    whose path names nothing: no leading slash, and only empty or "."
    segments, as in "." and "./".  In every other case it returns a path. *)
Theorem get_onnx_path_raises isdir output_dir p suffix new_folder e :
  get_onnx_path isdir output_dir p suffix new_folder = Throw e ↔
  e = PyIndexError ∧ isdir p = true ∧ startswith_sep p = false
  ∧ Forall (fun x => x = "" ∨ x = ".") (split sep p).
Proof.
  unfold get_onnx_path. destruct (isdir p).
  - unfold getitem_last. destruct (last (parts p)) as [n|] eqn:E; cbn [and_then].
    + split; [done|]. intros (_ & _ & Hp). apply parts_nil in Hp.
      rewrite Hp in E. done.
    + apply last_None, parts_nil in E. split; [|by intros [-> _]].
      intros [= <-]. tauto.
  - destruct (getitem_last_split_Return sep p) as (w & -> & _). cbn [and_then].
    split; [done|]. by intros (_ & ? & _).
Qed.

(** X2.  Whatever the arguments, the path returned ends with the suffix
    followed by ".onnx". *)
Theorem get_onnx_path_extension isdir output_dir p suffix new_folder path :
  get_onnx_path isdir output_dir p suffix new_folder = Return path →
  ∃ pre, path = pre +:+ suffix +:+ ".onnx".
Proof.
  unfold get_onnx_path.
  destruct (if isdir p then _ else _) as [n|]; [|done]. cbn [and_then].
  intros [= <-].
  destruct (os_path_join_suffix
              (if new_folder then os_path_join output_dir (n +:+ suffix) else output_dir)
              ((n +:+ suffix) +:+ ".onnx")) as [pre ->].
  exists (pre +:+ n). by rewrite !append_assoc.
Qed.

Lemma get_onnx_path_extension_witness :
  ∃ pre, "out/whisper-tiny_encoder/whisper-tiny_encoder.onnx"
         = pre +:+ "_encoder" +:+ ".onnx".
Proof.
  apply (get_onnx_path_extension (fun _ => false) "out" "openai/whisper-tiny"
           "_encoder" true).
  vm_compute; reflexivity.
Defined.

(** X3.  For a name that is not a directory and a suffix without a slash, the
    last segment of the path returned is the text behind the last slash of
    the name (so "openai/" and the like are dropped), then the suffix, then
    ".onnx", whatever [output_dir] and [new_folder] are. *)
Theorem get_onnx_path_file_name isdir output_dir p suffix new_folder :
  isdir p = false → contains sep suffix = false →
  ∃ name path,
    getitem_last (split sep p) = Return name
    ∧ get_onnx_path isdir output_dir p suffix new_folder = Return path
    ∧ getitem_last (split sep path) = Return (name +:+ suffix +:+ ".onnx").
Proof.
  intros Hdir Hsuf. unfold get_onnx_path. rewrite Hdir.
  destruct (getitem_last_split_Return sep p) as (name & Hname & Hsep).
  exists name. eexists. rewrite Hname. cbn [and_then]. split; [done|]. split; [done|].
  rewrite append_assoc.
  assert (Hfile : contains sep (name +:+ suffix +:+ ".onnx") = false).
  { by rewrite !contains_append, Hsep, Hsuf. }
  destruct (os_path_join_name
              (if new_folder then os_path_join output_dir (name +:+ suffix) else output_dir)
              _ Hfile) as [[_ ->]|(y & _ & -> & _)].
  - rewrite (split_no_sep _ _ Hfile). done.
  - rewrite split_app, (split_no_sep _ _ Hfile). apply last_snoc_split.
Qed.

Lemma get_onnx_path_file_name_witness :
  ∃ name path,
    getitem_last (split sep "openai/whisper-tiny") = Return name
    ∧ get_onnx_path (fun _ => false) "out/" "openai/whisper-tiny" "_decoder" true
      = Return path
    ∧ getitem_last (split sep path) = Return (name +:+ "_decoder" +:+ ".onnx").
Proof.
  apply (get_onnx_path_file_name (fun _ => false) "out/" "openai/whisper-tiny"
           "_decoder" true); vm_compute; reflexivity.
Defined.

(** X4.  With [new_folder], and a model name with suffix that is not empty,
    the file sits in a folder that carries its name without the extension,
    and in front of the two are exactly the segments of [output_dir]: none
    when it is empty, and without the empty segment behind a slash that ends
    it. *)
Theorem get_onnx_path_new_folder isdir output_dir p suffix name :
  isdir p = false → contains sep suffix = false →
  getitem_last (split sep p) = Return name →
  name +:+ suffix ≠ "" →
  ∃ path,
    get_onnx_path isdir output_dir p suffix true = Return path
    ∧ split sep path
      = ((if String.eqb output_dir "" then []
          else if endswith_sep output_dir
               then List.removelast (split sep output_dir)
               else split sep output_dir)
         ++ [name +:+ suffix; name +:+ suffix +:+ ".onnx"])%list.
Proof.
  intros Hdir Hsuf Hname Hne. unfold get_onnx_path. rewrite Hdir, Hname.
  cbn [and_then].
  assert (Hsep : contains sep name = false).
  { destruct (getitem_last_split_Return sep p) as (w & Hw & Hsep). congruence. }
  assert (Hn : contains sep (name +:+ suffix) = false).
  { by rewrite contains_append, Hsep, Hsuf. }
  assert (Hfile : contains sep ((name +:+ suffix) +:+ ".onnx") = false).
  { by rewrite contains_append, Hn. }
  assert (Hdirectory :
            ∃ x, os_path_join output_dir (name +:+ suffix) = x +:+ name +:+ suffix
                 ∧ split sep (x +:+ name +:+ suffix)
                   = ((if String.eqb output_dir "" then []
                       else if endswith_sep output_dir
                            then List.removelast (split sep output_dir)
                            else split sep output_dir)
                      ++ [name +:+ suffix])%list).
  { unfold os_path_join. rewrite (no_sep_startswith _ Hn).
    destruct (String.eqb_spec output_dir "") as [->|Hout]; cbn [orb].
    - exists "". rewrite append_nil_l, (split_no_sep _ _ Hn). done.
    - destruct (endswith_sep output_dir) eqn:He.
      + apply endswith_sep_inv in He as [y ->]. exists (y +:+ "/").
        split; [done|]. rewrite append_assoc.
        change ("/" +:+ name +:+ suffix) with (String sep (name +:+ suffix)).
        change "/" with (String sep "").
        rewrite !split_app, (split_no_sep _ _ Hn). cbn [split].
        by rewrite List.removelast_last.
      + exists (output_dir +:+ "/"). rewrite append_assoc. split; [done|].
        change ("/" +:+ name +:+ suffix) with (String sep (name +:+ suffix)).
        by rewrite split_app, (split_no_sep _ _ Hn). }
  destruct Hdirectory as (x & Hx & Hsplit). rewrite Hx.
  eexists. split; [reflexivity|].
  destruct (os_path_join_name (x +:+ name +:+ suffix) _ Hfile)
    as [[Habs _]|(y & _ & -> & [Hy|Hy])].
  - exfalso. destruct x; [|by rewrite append_cons in Habs].
    by rewrite append_nil_l in Habs.
  - exfalso.
    pose proof (endswith_sep_append x (name +:+ suffix) Hne Hn) as He.
    rewrite Hy in He. clear -He. induction y as [|c y IH]; [done|].
    rewrite append_cons in He. cbn [endswith_sep] in He.
    destruct (y +:+ "/") eqn:E; [by destruct y|]. by apply IH.
  - subst y. rewrite split_app, Hsplit, (split_no_sep _ _ Hfile).
    rewrite <- app_assoc. cbn [app]. by rewrite append_assoc.
Qed.

Lemma get_onnx_path_new_folder_witness :
  ∃ path,
    get_onnx_path (fun _ => false) "models/onnx/" "openai/whisper-tiny" "_fp16" true
    = Return path
    ∧ split sep path
      = ["models"; "onnx"; "whisper-tiny_fp16"; "whisper-tiny_fp16.onnx"].
Proof.
  apply (get_onnx_path_new_folder (fun _ => false) "models/onnx/"
           "openai/whisper-tiny" "_fp16" "whisper-tiny").
  - reflexivity.
  - vm_compute; reflexivity.
  - vm_compute; reflexivity.
  - vm_compute. discriminate.
Defined.

Lemma getitem_last_split_app c a b :
  contains c b = false →
  getitem_last (split c (a +:+ String c b)) = Return b.
Proof.
  intros Hb. rewrite split_app, (split_no_sep c b Hb). apply last_snoc_split.
Qed.

(** ** [load_model_openai] *)

(** X5.  For every name of [PRETRAINED_WHISPER_MODELS], given bare or behind
    an organisation and a slash, the key looked up in the tables of the
    [whisper] package is the name without its "whisper-". *)
Theorem openai_model_name_pretrained org name :
  name ∈ PRETRAINED_WHISPER_MODELS →
  ∃ key, "whisper-" +:+ key = name
         ∧ openai_model_name name = Return key
         ∧ openai_model_name (org +:+ "/" +:+ name) = Return key.
Proof.
  intros Hin. exists (slice_from 8 name).
  assert (Hsep : contains sep name = false ∧ "whisper-" +:+ slice_from 8 name = name).
  { unfold PRETRAINED_WHISPER_MODELS in Hin.
    repeat (apply elem_of_cons in Hin as [->|Hin]; [by vm_compute|]).
    by apply elem_of_nil in Hin. }
  destruct Hsep as [Hsep Hkey]. split; [done|]. unfold openai_model_name. split.
  - unfold getitem_last. by rewrite (split_no_sep _ _ Hsep).
  - change ("/" +:+ name) with (String sep name).
    by rewrite (getitem_last_split_app _ _ _ Hsep).
Qed.

Lemma openai_model_name_pretrained_witness :
  ∃ key, "whisper-" +:+ key = "whisper-large-v3"
         ∧ openai_model_name "whisper-large-v3" = Return key
         ∧ openai_model_name ("openai" +:+ "/" +:+ "whisper-large-v3") = Return key.
Proof.
  apply (openai_model_name_pretrained "openai" "whisper-large-v3").
  unfold PRETRAINED_WHISPER_MODELS. do 10 apply list_elem_of_further.
  apply list_elem_of_here.
Defined.

(** X6.  When the key derived from the name is not in [_MODELS], the call
    fails with a TypeError, whatever the package functions do: nothing was
    downloaded, and [open] is given [None]. *)
Theorem load_model_openai_unknown_name {Device Checkpoint Whisper : Type}
    (_MODELS _ALIGNMENT_HEADS : gmap string string)
    (_download : string → string → bool → outcome string)
    (torch_load : string → Device → outcome Checkpoint)
    (build_model : Checkpoint → outcome Whisper)
    (set_alignment_heads : string → Whisper → outcome Whisper)
    (to : Device → Whisper → outcome Whisper)
    (model_name_or_path cache_dir : string) (device : Device) key :
  openai_model_name model_name_or_path = Return key →
  _MODELS !! key = None →
  load_model_openai _MODELS _ALIGNMENT_HEADS _download torch_load build_model
                    set_alignment_heads to model_name_or_path cache_dir device
  = Throw PyTypeError.
Proof.
  intros Hkey Hnone. unfold load_model_openai. rewrite Hkey. cbn [and_then].
  by rewrite Hnone.
Qed.

Lemma load_model_openai_unknown_name_witness :
  load_model_openai (Device := unit) (Checkpoint := unit) (Whisper := unit)
    (<["tiny" := "https://openaipublic.azureedge.net/main/whisper/models/tiny.pt"]> ∅)
    (<["tiny" := "ABzY8"]> ∅)
    (fun _ _ _ => Throw (PyError "download"))
    (fun _ _ => Throw (PyError "load"))
    (fun _ => Throw (PyError "build"))
    (fun _ _ => Throw (PyError "heads"))
    (fun _ _ => Throw (PyError "to"))
    "distil-whisper/distil-small.en" "cache" tt
  = Throw PyTypeError.
Proof.
  apply (load_model_openai_unknown_name _ _ _ _ _ _ _ _ _ _ "mall.en");
    vm_compute; reflexivity.
Defined.

(** ** [get_server_details] *)

Lemma SERVERS_lookup s :
  SERVERS !! s =
    if String.eqb s SERVER_PROD then Some "https://api.unstructured.io"
    else if String.eqb s SERVER_LOCAL then Some "http://localhost:8000"
    else None.
Proof.
  unfold SERVERS.
  destruct (String.eqb_spec s SERVER_PROD) as [->|Hp]; [by rewrite lookup_insert_eq|].
  rewrite lookup_insert_ne by done.
  destruct (String.eqb_spec s SERVER_LOCAL) as [->|Hl]; [by rewrite lookup_insert_eq|].
  by rewrite lookup_insert_ne.
Qed.

(** X7.  [get_server_details] fails exactly when [server_url] is empty and
    [server] is neither empty nor one of the two names of [SERVERS]; the
    error is the KeyError of that name.  A non-empty [server_url] hides a
    wrong [server]. *)
Theorem get_server_details_raises remove_suffix self e :
  (get_server_details remove_suffix self).1 = Throw e ↔
  server_url self = "" ∧ server self ≠ "" ∧ server self ≠ SERVER_PROD
  ∧ server self ≠ SERVER_LOCAL ∧ e = PyKeyError (server self).
Proof.
  unfold get_server_details.
  destruct (String.eqb_spec (server_url self) "") as [Hu|Hu]; cbn [negb].
  2: { split; [done|]. by intros [? _]. }
  destruct (String.eqb_spec (server self) "") as [Hs|Hs].
  { cbn. split; [done|]. by intros (_ & ? & _). }
  rewrite SERVERS_lookup.
  destruct (String.eqb_spec (server self) SERVER_PROD) as [Hp|Hp].
  { split; [done|]. by intros (_ & _ & ? & _). }
  destruct (String.eqb_spec (server self) SERVER_LOCAL) as [Hl|Hl].
  { split; [done|]. by intros (_ & _ & _ & ? & _). }
  cbn. split; [by intros [= <-]|]. by intros (_ & _ & _ & _ & ->).
Qed.

(** X8.  A second call, on the object the first call left, returns what the
    first returned and leaves the object as it is. *)
Theorem get_server_details_idempotent remove_suffix self :
  get_server_details remove_suffix (get_server_details remove_suffix self).2
  = get_server_details remove_suffix self.
Proof.
  unfold get_server_details.
  destruct (String.eqb (server_url self) "") eqn:Hu; cbn [negb].
  - destruct (String.eqb (server self) "") eqn:Hs.
    + cbn [server set_server]. rewrite SERVERS_lookup, String.eqb_refl.
      cbn [snd server_url server set_server]. rewrite Hu. cbn [negb].
      change (String.eqb SERVER_PROD "") with false. cbn iota.
      by rewrite SERVERS_lookup, String.eqb_refl.
    + destruct (SERVERS !! server self) eqn:E; cbn [snd]; by rewrite Hu, Hs, E.
  - cbn [snd]. by rewrite Hu.
Qed.



(** ** [update_read_config] *)

Lemma join_nil_inv (l : list string) :
  Forall (fun w => w ≠ "") l → join "," l = "" → l = [].
Proof.
  destruct l as [|x l]; [done|]. intros Hall. inversion Hall; subst.
  destruct l; cbn [join]; [done|].
  destruct x; [done|]. by rewrite append_cons.
Qed.

Lemma join_comma_inj (l1 l2 : list string) :
  Forall (fun w => w ≠ "" ∧ contains comma w = false) l1 →
  Forall (fun w => w ≠ "" ∧ contains comma w = false) l2 →
  join "," l1 = join "," l2 → l1 = l2.
Proof.
  intros H1 H2 Heq.
  assert (Hne : ∀ l, Forall (fun w => w ≠ "" ∧ contains comma w = false) l →
                     Forall (fun w => w ≠ "") l)
    by (intros l Hl; eapply Forall_impl; [exact Hl|]; cbn; tauto).
  assert (Hsep : ∀ l, Forall (fun w => w ≠ "" ∧ contains comma w = false) l →
                      Forall (fun w => contains comma w = false) l)
    by (intros l Hl; eapply Forall_impl; [exact Hl|]; cbn; tauto).
  destruct l1 as [|x1 l1].
  { symmetry. apply join_nil_inv; [by apply Hne|done]. }
  destruct l2 as [|x2 l2].
  { apply join_nil_inv; [by apply Hne|done]. }
  rewrite <- (split_join comma (x1 :: l1)), <- (split_join comma (x2 :: l2));
    [|done|by apply Hsep|done|by apply Hsep].
  change (String comma "") with ",". by rewrite Heq.
Qed.

(** X10.  Two channels and the one channel made of their names around a
    comma give the same [hashed_dir_name], whatever the hash function. *)
Theorem hashed_dir_name_merges {Hash ReadConfig : Type} (sha256 : string → Hash)
    (a b : string) (rest : list string) (rc1 rc2 : ReadConfig) :
  hashed_dir_name sha256
    {| connector_config := {| channels := a :: b :: rest |}; read_config := rc1 |}
  = hashed_dir_name sha256
      {| connector_config := {| channels := (a +:+ "," +:+ b) :: rest |};
         read_config := rc2 |}.
Proof.
  unfold hashed_dir_name. cbn [connector_config channels]. f_equal.
  destruct rest as [|c rest]; [done|].
  rewrite (join_cons _ a), (join_cons _ b), (join_cons _ (a +:+ "," +:+ b)) by done.
  symmetry. by rewrite !append_assoc.
Qed.

(** X11.  Between lists of channels whose names are non-empty and free of
    commas, the text that is hashed tells the lists apart, so
    [hashed_dir_name] collides only where the hash function itself does: two
    different lists with the same [hashed_dir_name] give two different texts
    with the same hash. *)
Theorem hashed_dir_name_separates {Hash ReadConfig : Type} (sha256 : string → Hash)
    (r1 r2 : @DiscordRunner ReadConfig) :
  Forall (fun w => w ≠ "" ∧ contains comma w = false) (channels (connector_config r1)) →
  Forall (fun w => w ≠ "" ∧ contains comma w = false) (channels (connector_config r2)) →
  channels (connector_config r1) ≠ channels (connector_config r2) →
  hashed_dir_name sha256 r1 = hashed_dir_name sha256 r2 →
  ∃ s t, s ≠ t ∧ sha256 s = sha256 t.
Proof.
  intros H1 H2 Hne Heq.
  exists (join "," (channels (connector_config r1))),
         (join "," (channels (connector_config r2))).
  split; [|exact Heq]. intros Hjoin. apply Hne. by apply join_comma_inj.
Qed.

Lemma hashed_dir_name_separates_witness :
  ∃ s t, s ≠ t ∧ String.length s = String.length t.
Proof.
  apply (hashed_dir_name_separates (ReadConfig := unit) String.length
           {| connector_config :=
                {| channels := ["1099442333440802930"; "1099601456321003600"] |};
              read_config := tt |}
           {| connector_config :=
                {| channels := ["1099601456321003600"; "1099442333440802930"] |};
              read_config := tt |}).
  - repeat apply Forall_cons_2; [| |apply Forall_nil_2];
      (split; [discriminate|vm_compute; reflexivity]).
  - repeat apply Forall_cons_2; [| |apply Forall_nil_2];
      (split; [discriminate|vm_compute; reflexivity]).
  - simpl. discriminate.
  - vm_compute; reflexivity.
Defined.

(** ** The comparison of [verify_onnx] *)

Section VerifyOnnxFacts.
Local Open Scope Z_scope.

Lemma foldl_min_spec (x : Z) (rest : list Z) :
  foldl Z.min x rest ∈ x :: rest ∧ ∀ y, y ∈ x :: rest → foldl Z.min x rest <= y.
Proof.
  revert x. induction rest as [|z rest IH]; intros x; cbn [foldl].
  - split; [apply list_elem_of_here|]. intros y ->%list_elem_of_singleton. lia.
  - destruct (IH (Z.min x z)) as [Hin Hle]. split.
    + apply elem_of_cons in Hin as [Heq|Hin].
      * rewrite Heq. destruct (Z.min_spec x z) as [[_ ->]|[_ ->]].
        -- apply list_elem_of_here.
        -- apply list_elem_of_further, list_elem_of_here.
      * by do 2 apply list_elem_of_further.
    + intros y Hy. apply elem_of_cons in Hy as [->|Hy].
      * specialize (Hle (Z.min x z) (list_elem_of_here _ _)). lia.
      * apply elem_of_cons in Hy as [->|Hy].
        -- specialize (Hle (Z.min x z) (list_elem_of_here _ _)). lia.
        -- apply Hle. by apply list_elem_of_further.
Qed.

Lemma foldl_max_spec (x : Z) (rest : list Z) :
  foldl Z.max x rest ∈ x :: rest ∧ ∀ y, y ∈ x :: rest → y <= foldl Z.max x rest.
Proof.
  revert x. induction rest as [|z rest IH]; intros x; cbn [foldl].
  - split; [apply list_elem_of_here|]. intros y ->%list_elem_of_singleton. lia.
  - destruct (IH (Z.max x z)) as [Hin Hle]. split.
    + apply elem_of_cons in Hin as [Heq|Hin].
      * rewrite Heq. destruct (Z.max_spec x z) as [[_ ->]|[_ ->]].
        -- apply list_elem_of_further, list_elem_of_here.
        -- apply list_elem_of_here.
      * by do 2 apply list_elem_of_further.
    + intros y Hy. apply elem_of_cons in Hy as [->|Hy].
      * specialize (Hle (Z.max x z) (list_elem_of_here _ _)). lia.
      * apply elem_of_cons in Hy as [->|Hy].
        -- specialize (Hle (Z.max x z) (list_elem_of_here _ _)). lia.
        -- apply Hle. by apply list_elem_of_further.
Qed.

(** A non-empty row has a smallest and a largest element. *)
Lemma amin_amax_spec (d : list Z) :
  d ≠ [] →
  ∃ lo hi, amin d = Return lo ∧ amax d = Return hi
           ∧ lo ∈ d ∧ hi ∈ d ∧ ∀ y, y ∈ d → lo <= y <= hi.
Proof.
  destruct d as [|x rest]; [done|]. intros _.
  destruct (foldl_min_spec x rest) as [Hlo1 Hlo2].
  destruct (foldl_max_spec x rest) as [Hhi1 Hhi2].
  exists (foldl Z.min x rest), (foldl Z.max x rest).
  repeat (split; [done|]). intros y Hy. split; auto.
Qed.

(** Within the 64-bit range nothing wraps. *)
Lemma wrap_int64_small z : - 2 ^ 63 <= z < 2 ^ 63 → wrap_int64 z = z.
Proof. intros Hz. unfold wrap_int64. rewrite Z.mod_small by lia. lia. Qed.

(** The smallest 64-bit integer is its own [abs]. *)
Lemma abs_int64_min : abs_int64 (- 2 ^ 63) = - 2 ^ 63.
Proof. reflexivity. Qed.

(** Of a smallest and a largest difference whose [abs] does not wrap, the
    value kept is one of the two, and nothing between them is larger in
    absolute value. *)
Lemma max_key_abs_spec (lo hi : Z) :
  - 2 ^ 63 < lo → hi < 2 ^ 63 → lo <= hi →
  (max_key_abs lo hi = lo ∨ max_key_abs lo hi = hi)
  ∧ ∀ y, lo <= y <= hi → Z.abs y <= Z.abs (max_key_abs lo hi).
Proof.
  intros Hlo Hhi Hle. unfold max_key_abs, abs_int64.
  rewrite !wrap_int64_small by lia.
  destruct (Z.ltb_spec (Z.abs lo) (Z.abs hi)); (split; [auto|]); intros y Hy; lia.
Qed.

(** The differences of token ids that are not negative do not wrap. *)
Lemma zip_with_sub_int64 (a b : list Z) :
  Forall (fun v => 0 <= v < 2 ^ 63) a →
  Forall (fun v => 0 <= v < 2 ^ 63) b →
  zip_with sub_int64 a b = zip_with Z.sub a b
  ∧ Forall (fun y => - 2 ^ 63 < y < 2 ^ 63) (zip_with Z.sub a b).
Proof.
  intros Ha. revert b. induction Ha as [|x a Hx _ IH]; intros b Hb; [done|].
  destruct Hb as [|y b Hy Hb]; [done|]. cbn [zip_with].
  destruct (IH b Hb) as [-> Hall]. unfold sub_int64 at 1.
  rewrite wrap_int64_small by lia. split; [done|]. constructor; [lia|done].
Qed.

Lemma row_sub_same_length (a b : list Z) :
  length a = length b → row_sub a b = Return (zip_with sub_int64 a b).
Proof. intros H. unfold row_sub. by rewrite H, Nat.eqb_refl. Qed.

(** When the second run is at least as long as the first, the differences are
    taken position by position over the length of the first. *)
Lemma verify_onnx_diff (pt_outputs ort_outputs : list Z) :
  (length pt_outputs <= length ort_outputs)%nat →
  (if negb (length pt_outputs =? length ort_outputs)%nat
   then row_sub pt_outputs (take (length pt_outputs) ort_outputs)
   else row_sub pt_outputs ort_outputs)
  = Return (zip_with sub_int64 pt_outputs (take (length pt_outputs) ort_outputs)).
Proof.
  intros Hle. destruct (Nat.eqb_spec (length pt_outputs) (length ort_outputs)) as [E|E];
    cbn [negb].
  - rewrite take_ge by lia. by apply row_sub_same_length.
  - apply row_sub_same_length. rewrite length_take. lia.
Qed.

(** The comparison on token ids that are not negative: the differences, their
    smallest and largest, and the value returned. *)
Lemma verify_onnx_tokens pt_transcription ort_transcription pt_outputs ort_outputs :
  parity pt_transcription ort_transcription = false →
  (0 < length pt_outputs <= length ort_outputs)%nat →
  Forall (fun v => 0 <= v < 2 ^ 63) pt_outputs →
  Forall (fun v => 0 <= v < 2 ^ 63) ort_outputs →
  let d := zip_with Z.sub pt_outputs (take (length pt_outputs) ort_outputs) in
  ∃ r, verify_onnx pt_transcription ort_transcription pt_outputs ort_outputs = Return r
       ∧ r ∈ d ∧ ∀ y, y ∈ d → Z.abs y <= Z.abs r.
Proof.
  intros Hpar [Hpos Hle] Hpt Hort d. unfold verify_onnx. rewrite Hpar.
  rewrite (verify_onnx_diff _ _ Hle). cbn [and_then].
  destruct (zip_with_sub_int64 pt_outputs (take (length pt_outputs) ort_outputs))
    as [-> Hrange]; [done|by apply Forall_take|]. fold d in Hrange |- *.
  assert (Hd : d ≠ []).
  { intros E. apply (f_equal length) in E. unfold d in E.
    rewrite length_zip_with, length_take in E. cbn [length] in E. lia. }
  destruct (amin_amax_spec d Hd) as (lo & hi & -> & -> & Hlo & Hhi & Hbetween).
  cbn [and_then]. rewrite Forall_forall in Hrange.
  pose proof (Hrange lo Hlo). pose proof (Hrange hi Hhi). pose proof (Hbetween lo Hlo).
  destruct (max_key_abs_spec lo hi) as [Hor Hmax]; [lia..|].
  eexists. split; [done|]. split.
  - by destruct Hor as [->| ->].
  - intros y Hy. apply Hmax. by apply Hbetween.
Qed.

Lemma zip_with_sub_zero (a b : list Z) :
  length a = length b →
  (∀ y, y ∈ zip_with Z.sub a b → y = 0) → a = b.
Proof.
  revert b. induction a as [|x a IH]; intros [|y b] Hlen Hall; try done.
  cbn in Hlen, Hall. f_equal.
  - specialize (Hall (x - y) (list_elem_of_here _ _)). lia.
  - apply IH; [lia|]. intros z Hz. apply Hall. by apply list_elem_of_further.
Qed.

Lemma zip_with_sub_diag (a : list Z) y : y ∈ zip_with Z.sub a a → y = 0.
Proof.
  induction a as [|x a IH]; cbn; [by intros ?%elem_of_nil|].
  intros [->|?]%elem_of_cons; [lia|auto].
Qed.

(** X12.  For token ids that are not negative: when the ONNX run produced at
    least as many tokens as the PyTorch run, which produced some, the value
    returned is 0 exactly when both transcriptions are expected ones or the
    ONNX tokens begin with the PyTorch tokens; what the ONNX run produced
    beyond is never looked at. *)
Theorem verify_onnx_zero pt_transcription ort_transcription pt_outputs ort_outputs :
  (0 < length pt_outputs <= length ort_outputs)%nat →
  Forall (fun v => 0 <= v < 2 ^ 63) pt_outputs →
  Forall (fun v => 0 <= v < 2 ^ 63) ort_outputs →
  verify_onnx pt_transcription ort_transcription pt_outputs ort_outputs = Return 0
  ↔ parity pt_transcription ort_transcription = true
    ∨ take (length pt_outputs) ort_outputs = pt_outputs.
Proof.
  intros Hlen Hpt Hort.
  destruct (parity pt_transcription ort_transcription) eqn:Hpar.
  { unfold verify_onnx. rewrite Hpar. by split; auto. }
  destruct (verify_onnx_tokens _ _ _ _ Hpar Hlen Hpt Hort) as (r & -> & Hin & Hmax).
  split.
  - intros [= Hr]. right. symmetry. apply zip_with_sub_zero.
    + rewrite length_take. lia.
    + intros y Hy. specialize (Hmax y Hy). rewrite Hr in Hmax. lia.
  - intros [?|Heq]; [done|]. f_equal. apply (zip_with_sub_diag pt_outputs).
    by rewrite Heq in Hin.
Qed.

Lemma verify_onnx_zero_witness :
  verify_onnx " Mr. Quilter is the apostle." " Mr. Quilter is the apostle. And"
    [50258; 50259; 50358] [50258; 50259; 50358; 400] = Return 0
  ↔ parity " Mr. Quilter is the apostle." " Mr. Quilter is the apostle. And" = true
    ∨ take (length [50258; 50259; 50358]) [50258; 50259; 50358; 400]
      = [50258; 50259; 50358].
Proof.
  apply (verify_onnx_zero _ _ [50258; 50259; 50358] [50258; 50259; 50358; 400]).
  - simpl. lia.
  - repeat apply Forall_cons_2; try apply Forall_nil_2; lia.
  - repeat apply Forall_cons_2; try apply Forall_nil_2; lia.
Defined.

(** X13.  For token ids that are not negative, without parity and under the
    same condition on the lengths, the value returned is one of the
    differences between tokens at the same position, and no such difference
    is larger in absolute value. *)
Theorem verify_onnx_largest pt_transcription ort_transcription pt_outputs ort_outputs :
  parity pt_transcription ort_transcription = false →
  (0 < length pt_outputs <= length ort_outputs)%nat →
  Forall (fun v => 0 <= v < 2 ^ 63) pt_outputs →
  Forall (fun v => 0 <= v < 2 ^ 63) ort_outputs →
  ∃ r, verify_onnx pt_transcription ort_transcription pt_outputs ort_outputs = Return r
       ∧ (∃ i x y, pt_outputs !! i = Some x ∧ ort_outputs !! i = Some y ∧ r = x - y)
       ∧ (∀ i x y, pt_outputs !! i = Some x → ort_outputs !! i = Some y →
                   Z.abs (x - y) <= Z.abs r).
Proof.
  intros Hpar Hlen Hpt Hort.
  destruct (verify_onnx_tokens _ _ _ _ Hpar Hlen Hpt Hort) as (r & -> & Hin & Hmax).
  exists r. split; [done|]. split.
  - apply list_elem_of_lookup in Hin as [i Hi].
    apply lookup_zip_with_Some in Hi as (x & y & Hr & Hx & Hy).
    apply lookup_take_Some in Hy as [Hy _]. by exists i, x, y.
  - intros i x y Hx Hy. apply Hmax. apply list_elem_of_lookup. exists i.
    apply lookup_zip_with_Some. exists x, y. split; [done|]. split; [done|].
    apply lookup_take_Some. split; [done|]. by apply lookup_lt_Some in Hx.
Qed.

Lemma verify_onnx_largest_witness :
  ∃ r, verify_onnx "a" "b" [50258; 7; 9] [50258; 12; 4; 400] = Return r
       ∧ (∃ i x y, [50258; 7; 9] !! i = Some x
                   ∧ [50258; 12; 4; 400] !! i = Some y ∧ r = x - y)
       ∧ (∀ i x y, [50258; 7; 9] !! i = Some x → [50258; 12; 4; 400] !! i = Some y →
                   Z.abs (x - y) <= Z.abs r).
Proof.
  apply (verify_onnx_largest "a" "b" [50258; 7; 9] [50258; 12; 4; 400]).
  - vm_compute; reflexivity.
  - simpl. lia.
  - repeat apply Forall_cons_2; try apply Forall_nil_2; lia.
  - repeat apply Forall_cons_2; try apply Forall_nil_2; lia.
Defined.

(** X14.  The comparison fails, with the ValueError of numpy, exactly when
    there is no parity and either the PyTorch run produced no token or the
    ONNX run produced fewer tokens, and not exactly one. *)
Theorem verify_onnx_raises pt_transcription ort_transcription pt_outputs ort_outputs e :
  verify_onnx pt_transcription ort_transcription pt_outputs ort_outputs = Throw e
  ↔ parity pt_transcription ort_transcription = false
    ∧ (length pt_outputs = 0
       ∨ (length ort_outputs < length pt_outputs ∧ length ort_outputs ≠ 1))%nat
    ∧ e = PyValueError.
Proof.
  unfold verify_onnx.
  destruct (parity pt_transcription ort_transcription); [by split; [|intros [? _]]|].
  destruct (Nat.le_gt_cases (length pt_outputs) (length ort_outputs)) as [Hle|Hgt].
  - rewrite (verify_onnx_diff _ _ Hle). cbn [and_then].
    destruct pt_outputs as [|x p].
    + cbn. split; [intros [= <-]; auto|by intros (_ & _ & ->)].
    + set (d := zip_with _ _ _).
      assert (Hd : d ≠ []).
      { intros E. apply (f_equal length) in E. unfold d in E.
        rewrite length_zip_with, length_take in E. cbn [length] in E, Hle. lia. }
      destruct (amin_amax_spec d Hd) as (lo & hi & -> & -> & _). cbn [and_then].
      split; [done|]. cbn [length] in *. intros (_ & [?|[? _]] & _); lia.
  - destruct (Nat.eqb_spec (length pt_outputs) (length ort_outputs)) as [E|_]; [lia|].
    cbn [negb]. rewrite take_ge by lia. unfold row_sub.
    destruct (Nat.eqb_spec (length pt_outputs) (length ort_outputs)) as [E|_]; [lia|].
    destruct ort_outputs as [|y [|y' o]].
    + destruct pt_outputs as [|x [|x' p]]; cbn in Hgt; [lia| |].
      * cbn. split; [intros [= <-]|by intros (_ & _ & ->)].
        split; [done|]. split; [right; cbn; lia|done].
      * cbn. split; [intros [= <-]|by intros (_ & _ & ->)].
        split; [done|]. split; [right; cbn; lia|done].
    + cbn [and_then]. set (d := _ <$> _).
      assert (Hd : d ≠ []).
      { intros E. apply (f_equal length) in E. unfold d in E.
        rewrite length_fmap in E. cbn [length] in E, Hgt. lia. }
      destruct (amin_amax_spec d Hd) as (lo & hi & -> & -> & _). cbn [and_then].
      split; [done|]. cbn [length] in *. intros (_ & [?|[_ ?]] & _); [lia|done].
    + destruct pt_outputs as [|x [|x' p]]; cbn in Hgt; [lia|lia|].
      cbn. split; [intros [= <-]|by intros (_ & _ & ->)].
      split; [done|]. split; [right; cbn; lia|done].
Qed.

End VerifyOnnxFacts.

(** ** [optimize_onnx] *)



(** ** [auto_mixed_precision] once more *)

(** X16.  The parameters returned carry the caller's block list as it was
    given, and pin nothing but the first declared output and the node that
    produces it: either both lists are empty, or that node is a MatMul,
    [keep_io_types] is the name of the first output and [node_block_list] the
    name of that node, with [force_fp16_initializers] false. *)
Theorem auto_mixed_precision_pins_only_logits
    convert_float_to_float16 onnx_model op_block_list' p converted :
  auto_mixed_precision convert_float_to_float16 onnx_model op_block_list'
  = Ok (p, converted) →
  op_block_list p = op_block_list'
  ∧ ∃ o n,
      produces_first_output onnx_model o n
      ∧ ((keep_io_types p = [] ∧ node_block_list p = [])
         ∨ (op_type n = "MatMul" ∧ keep_io_types p = [o]
            ∧ node_block_list p = [node_name n]
            ∧ force_fp16_initializers p = false)).
Proof.
  intros H.
  assert (∃ o n, produces_first_output onnx_model o n) as (o & n & Hp).
  { revert H. unfold auto_mixed_precision, first_output, produces_first_output.
    destruct (output (graph onnx_model)) as [|vi rest]; [done|]. cbn [bind].
    destruct (output_name_to_node onnx_model !! value_name vi) as [n|] eqn:E; [|done].
    intros _. by exists (value_name vi), n. }
  rewrite (auto_mixed_precision_at_node _ _ _ _ _ Hp) in H.
  destruct (String.eqb (op_type n) "MatMul") eqn:Hop.
  - destruct (float_to_float16_max_diff _) as [d|e]; [|done]. cbn [bind] in H.
    apply String.eqb_eq in Hop.
    destruct (Float.flt d Float.threshold); injection H as <- _;
      (split; [done|]); exists o, n; (split; [done|]); [left|right]; done.
  - injection H as <- _. split; [done|]. exists o, n. split; [done|]. by left.
Qed.

Lemma auto_mixed_precision_pins_only_logits_witness :
  let p := fp32_parameters default_op_block_list "logits" matmul_node in
  op_block_list p = default_op_block_list
  ∧ ∃ o n,
      produces_first_output (logits_model [Fin (123456789 # 1000)]) o n
      ∧ ((keep_io_types p = [] ∧ node_block_list p = [])
         ∨ (op_type n = "MatMul" ∧ keep_io_types p = [o]
            ∧ node_block_list p = [node_name n]
            ∧ force_fp16_initializers p = false)).
Proof.
  apply (auto_mixed_precision_pins_only_logits unconverted
           (logits_model [Fin (123456789 # 1000)]) default_op_block_list _
           (unconverted
              (fp32_parameters default_op_block_list "logits" matmul_node)
              (logits_model [Fin (123456789 # 1000)]))).
  vm_compute; reflexivity.
Defined.
